(** * tinycompress: the compress-offload stream handle of [src/compress.c]

    A shallow embedding of the handle operations of [compress.c] and the
    properties of its gapless latches, its flow-controlled transfer loops,
    its open/close resource discipline and its timestamp arithmetic.

    Conventions of the embedding.
    - C integers are [Z]; unsigned arithmetic wraps ([u32]), conversions to
      [int] wrap ([s32]), and signed overflow of an [int] accumulator, which
      C leaves undefined, stops the run with [Fault].
    - A [struct compress *] argument is the struct it designates; pointer
      identity (the sentinel [bad_compress], [calloc] and [free]) appears only
      in [compress_open], [compress_close] and [is_codec_supported], which
      work on a [world].
    - Pointers the code dereferences without a test ([compress->ops],
      [compress->config], the [codec] argument) are options; dereferencing
      [None] is [Fault].
    - A copy or a read that goes past the end of the object it is made in
      is undefined as well, and is [Fault].
    - The backend ([struct compress_ops], declared in [compress_ops.h]) and
      the node helpers of [snd_utils.h] are external: they are parameters,
      and every call made to them is appended to a trace. *)

From Stdlib Require Import ZArith Lia List Bool String.
From stdpp Require Import base option gmap strings pretty.
Import ListNotations.

Local Open Scope string_scope.
Local Open Scope list_scope.
Local Open Scope Z_scope.

(** ** Machine integers *)

Definition INT_MAX : Z := 2147483647.
Definition INT_MIN : Z := -2147483648.
Definition UINT_MAX : Z := 4294967295.

(** Reduction into [unsigned int] / [__u32]. *)
Definition u32 (z : Z) : Z := z mod 4294967296.

(** Conversion of an out-of-range value to [int] (two's complement). *)
Definition s32 (z : Z) : Z := (z + 2147483648) mod 4294967296 - 2147483648.

(** Reduction into [__u64]. *)
Definition u64 (z : Z) : Z := z mod 18446744073709551616.

(** ** Constants of the system headers (Linux values) *)

Module Errno.
Definition EPERM : Z := 1.
Definition EIO : Z := 5.
Definition ENXIO : Z := 6.
Definition ENOMEM : Z := 12.
Definition ENODEV : Z := 19.
Definition EINVAL : Z := 22.
Definition ENODATA : Z := 61.
Definition ETIME : Z := 62.
Definition EBADFD : Z := 77.
End Errno.
Export Errno.

Definition POLLIN : Z := 1.
Definition POLLOUT : Z := 4.
Definition POLLERR : Z := 8.

(** [tinycompress.h] *)
Definition COMPRESS_OUT : Z := 536870912.
Definition COMPRESS_IN : Z := 268435456.

(** [SNDRV_PROTOCOL_VERSION(major, minor, subminor)] of [sound/asound.h]. *)
Definition SNDRV_PROTOCOL_VERSION (major minor subminor : Z) : Z :=
  Z.lor (Z.lor (Z.shiftl major 16) (Z.shiftl minor 8)) subminor.

(** [snd_utils.h] *)
Definition NODE_COMPRESS : Z := 2.
Definition SND_NODE_TYPE_PLUGIN : Z := 1.

Definition COMPR_ERR_MAX : nat := 128.

(** Default maximum time we will wait in a poll() - 20 seconds *)
Definition DEFAULT_MAX_POLL_WAIT_MS : Z := 20000.

(** ** Data of the kernel interface and of the library *)

(** [struct snd_codec]: only [id] is inspected by the library; the other
    words of the descriptor travel with it. *)
Record snd_codec : Type := {
  id : Z;
  codec_words : list Z
}.

(** [struct compr_config]; the codec descriptor is kept with the
    configuration that refers to it. *)
Record compr_config : Type := {
  fragment_size : Z;
  fragments : Z;
  codec : snd_codec
}.

Record snd_compressed_buffer : Type := {
  buffer_fragment_size : Z;
  buffer_fragments : Z
}.

Record snd_compr_params : Type := {
  buffer : snd_compressed_buffer;
  params_codec : snd_codec
}.

Record snd_compr_caps : Type := {
  num_codecs : Z;
  min_fragment_size : Z;
  max_fragment_size : Z;
  min_fragments : Z;
  max_fragments : Z;
  codecs : list Z
}.

Record snd_compr_tstamp : Type := {
  byte_offset : Z;
  copied_total : Z;
  pcm_frames : Z;
  pcm_io_frames : Z;
  sampling_rate : Z
}.

Record snd_compr_avail : Type := {
  avail : Z;
  tstamp : snd_compr_tstamp
}.

Record snd_compr_metadata : Type := {
  key : Z;
  value0 : Z
}.

Definition SNDRV_COMPRESS_ENCODER_PADDING : Z := 1.
Definition SNDRV_COMPRESS_ENCODER_DELAY : Z := 2.

Record compr_gapless_mdata : Type := {
  encoder_delay : Z;
  encoder_padding : Z
}.

Record timespec : Type := {
  tv_sec : Z;
  tv_nsec : Z
}.

(** A device node reference ([void *snd_node]); [0] is [NULL]. *)
Definition node : Type := Z.

(** ** The backend *)

(** The control requests the library issues, indexed by the type of the
    value the call leaves in the object its third argument points to. *)
Inductive ioctl_req : Type -> Type :=
| SNDRV_COMPRESS_IOCTL_VERSION : ioctl_req Z
| SNDRV_COMPRESS_GET_CAPS : ioctl_req snd_compr_caps
| SNDRV_COMPRESS_SET_PARAMS (p : snd_compr_params) : ioctl_req unit
| SNDRV_COMPRESS_AVAIL : ioctl_req snd_compr_avail
| SNDRV_COMPRESS_TSTAMP : ioctl_req snd_compr_tstamp
| SNDRV_COMPRESS_SET_METADATA (m : snd_compr_metadata) : ioctl_req unit
| SNDRV_COMPRESS_START : ioctl_req unit
| SNDRV_COMPRESS_STOP : ioctl_req unit
| SNDRV_COMPRESS_PAUSE : ioctl_req unit
| SNDRV_COMPRESS_RESUME : ioctl_req unit
| SNDRV_COMPRESS_DRAIN : ioctl_req unit
| SNDRV_COMPRESS_PARTIAL_DRAIN : ioctl_req unit
| SNDRV_COMPRESS_NEXT_TRACK : ioctl_req unit.

Record ioctl_res (D T : Type) : Type := {
  io_ret : Z;
  io_errno : option Z;
  io_out : T;
  io_data : D
}.
Arguments io_ret {D T} _.
Arguments io_errno {D T} _.
Arguments io_out {D T} _.
Arguments io_data {D T} _.

Record open_res (D : Type) : Type := {
  open_fd : Z;
  open_errno : option Z;
  open_data : D
}.
Arguments open_fd {D} _.
Arguments open_errno {D} _.
Arguments open_data {D} _.

Record xfer_res (D : Type) : Type := {
  xfer_ret : Z;
  xfer_errno : option Z;
  xfer_data : D
}.
Arguments xfer_ret {D} _.
Arguments xfer_errno {D} _.
Arguments xfer_data {D} _.

Record poll_res (D : Type) : Type := {
  poll_ret : Z;
  poll_revents : Z;
  poll_errno : option Z;
  poll_data : D
}.
Arguments poll_ret {D} _.
Arguments poll_revents {D} _.
Arguments poll_errno {D} _.
Arguments poll_data {D} _.

(** [struct compress_ops] over backend data [D] ([void *data]).  Each
    result carries the value the call stored in [errno], if it stored one,
    and the backend data after the call.  A transfer is told the position of [cbuf] in the
    caller's buffer and the byte count. *)
Record compress_ops (D : Type) : Type := {
  ops_open : Z -> Z -> Z -> node -> open_res D;
  ops_close : D -> unit;
  ops_ioctl : forall T : Type, D -> ioctl_req T -> ioctl_res D T;
  ops_read : D -> Z -> Z -> xfer_res D;
  ops_write : D -> Z -> Z -> xfer_res D;
  ops_poll : D -> Z -> Z -> poll_res D
}.
Arguments ops_open {D} _.
Arguments ops_close {D} _.
Arguments ops_ioctl {D} _ {T}.
Arguments ops_read {D} _.
Arguments ops_write {D} _.
Arguments ops_poll {D} _.

(** Calls that leave the library. *)
Inductive event (D : Type) : Type :=
| ev_get_dev_node (card device kind : Z) (n : node)
| ev_put_dev_node (n : node)
| ev_open (card device flags : Z) (n : node) (fd : Z)
| ev_close (d : D)
| ev_ioctl (T : Type) (r : ioctl_req T)
| ev_poll (events timeout : Z)
| ev_write (cbuf n : Z)
| ev_read (cbuf n : Z).
Arguments ev_get_dev_node {D}.
Arguments ev_put_dev_node {D}.
Arguments ev_open {D}.
Arguments ev_close {D}.
Arguments ev_ioctl {D T}.
Arguments ev_poll {D}.
Arguments ev_write {D}.
Arguments ev_read {D}.

(** What a call of the library comes to. *)
Inductive outcome (A : Type) : Type :=
| Returns (a : A)
| Fault
| OutOfFuel.
Arguments Returns {A}.
Arguments Fault {A}.
Arguments OutOfFuel {A}.

#[global] Instance outcome_bind : MBind outcome := fun A B k m =>
  match m with
  | Returns a => k a
  | Fault => Fault
  | OutOfFuel => OutOfFuel
  end.

(** [if (x)] on an [int]. *)
Definition truthy (x : Z) : bool := negb (x =? 0).

(** ** The handle *)

(** The process state outside the handle: [errno] and the calls made. *)
Record env (D : Type) : Type := {
  errno : Z;
  trace : list (event D)
}.
Arguments errno {D} _.
Arguments trace {D} _.

(** [errno] after an external call that stored [stored] in it, or left
    it alone. *)
Definition errno_after {D : Type} (en : env D) (stored : option Z) : Z :=
  match stored with
  | Some e => e
  | None => errno en
  end.

Record compress (D : Type) : Type := {
  fd : Z;
  flags : Z;
  error : string;
  config : option compr_config;
  running : Z;
  max_poll_wait_ms : Z;
  nonblocking : Z;
  gapless_metadata : Z;
  next_track : Z;
  ops : option (compress_ops D);
  data : D;
  snd_node : node
}.
Arguments fd {D} _.
Arguments flags {D} _.
Arguments error {D} _.
Arguments config {D} _.
Arguments running {D} _.
Arguments max_poll_wait_ms {D} _.
Arguments nonblocking {D} _.
Arguments gapless_metadata {D} _.
Arguments next_track {D} _.
Arguments ops {D} _.
Arguments data {D} _.
Arguments snd_node {D} _.

Section Handle.

Context {D : Type}.

(** [strerror] of the C library. *)
Variable strerror : Z -> string.

(** *** Field updates *)

Definition set_error (c : compress D) (s : string) : compress D :=
  {| fd := fd c; flags := flags c; error := s; config := config c;
     running := running c; max_poll_wait_ms := max_poll_wait_ms c;
     nonblocking := nonblocking c; gapless_metadata := gapless_metadata c;
     next_track := next_track c; ops := ops c; data := data c;
     snd_node := snd_node c |}.

Definition set_config (c : compress D) (cfg : option compr_config) : compress D :=
  {| fd := fd c; flags := flags c; error := error c; config := cfg;
     running := running c; max_poll_wait_ms := max_poll_wait_ms c;
     nonblocking := nonblocking c; gapless_metadata := gapless_metadata c;
     next_track := next_track c; ops := ops c; data := data c;
     snd_node := snd_node c |}.

Definition set_running (c : compress D) (v : Z) : compress D :=
  {| fd := fd c; flags := flags c; error := error c; config := config c;
     running := v; max_poll_wait_ms := max_poll_wait_ms c;
     nonblocking := nonblocking c; gapless_metadata := gapless_metadata c;
     next_track := next_track c; ops := ops c; data := data c;
     snd_node := snd_node c |}.

Definition set_max_poll_wait_ms (c : compress D) (v : Z) : compress D :=
  {| fd := fd c; flags := flags c; error := error c; config := config c;
     running := running c; max_poll_wait_ms := v;
     nonblocking := nonblocking c; gapless_metadata := gapless_metadata c;
     next_track := next_track c; ops := ops c; data := data c;
     snd_node := snd_node c |}.

Definition set_nonblocking (c : compress D) (v : Z) : compress D :=
  {| fd := fd c; flags := flags c; error := error c; config := config c;
     running := running c; max_poll_wait_ms := max_poll_wait_ms c;
     nonblocking := v; gapless_metadata := gapless_metadata c;
     next_track := next_track c; ops := ops c; data := data c;
     snd_node := snd_node c |}.

Definition set_gapless_metadata (c : compress D) (v : Z) : compress D :=
  {| fd := fd c; flags := flags c; error := error c; config := config c;
     running := running c; max_poll_wait_ms := max_poll_wait_ms c;
     nonblocking := nonblocking c; gapless_metadata := v;
     next_track := next_track c; ops := ops c; data := data c;
     snd_node := snd_node c |}.

Definition set_next_track (c : compress D) (v : Z) : compress D :=
  {| fd := fd c; flags := flags c; error := error c; config := config c;
     running := running c; max_poll_wait_ms := max_poll_wait_ms c;
     nonblocking := nonblocking c; gapless_metadata := gapless_metadata c;
     next_track := v; ops := ops c; data := data c;
     snd_node := snd_node c |}.

Definition set_data (c : compress D) (d : D) : compress D :=
  {| fd := fd c; flags := flags c; error := error c; config := config c;
     running := running c; max_poll_wait_ms := max_poll_wait_ms c;
     nonblocking := nonblocking c; gapless_metadata := gapless_metadata c;
     next_track := next_track c; ops := ops c; data := d;
     snd_node := snd_node c |}.

Definition set_fd (c : compress D) (v : Z) : compress D :=
  {| fd := v; flags := flags c; error := error c; config := config c;
     running := running c; max_poll_wait_ms := max_poll_wait_ms c;
     nonblocking := nonblocking c; gapless_metadata := gapless_metadata c;
     next_track := next_track c; ops := ops c; data := data c;
     snd_node := snd_node c |}.

Definition set_errno (e : env D) (v : Z) : env D :=
  {| errno := v; trace := trace e |}.

Definition emit (e : env D) (ev : event D) : env D :=
  {| errno := errno e; trace := trace e ++ [ev] |}.

(** *** The error reporter *)

(** The text [oops] leaves in [compress->error]: the message, then
    [": "] and [strerror(e)], cut to the capacity of the buffer. *)
Definition oops_text (e : Z) (msg : string) : string :=
  String.substring 0 (COMPR_ERR_MAX - 1) (msg +:+ ": " +:+ strerror e).

(** [oops(compress, e, fmt, ...)], with the message already formatted. *)
Definition oops (c : compress D) (e : Z) (msg : string) (en : env D)
  : Z * compress D * env D :=
  (-1, set_error c (oops_text e msg), set_errno en e).

Definition compress_get_error (c : compress D) : string := error c.

Definition is_compress_running (c : compress D) : Z :=
  if (0 <=? fd c) && truthy (running c) then 1 else 0.

Definition is_compress_ready (c : compress D) : Z :=
  if 0 <=? fd c then 1 else 0.

(** *** Calls through [compress->ops] *)

Definition call_ioctl {T : Type} (c : compress D) (r : ioctl_req T) (en : env D)
  : outcome (Z * T * compress D * env D) :=
  match ops c with
  | None => Fault
  | Some o =>
      let res := ops_ioctl o (data c) r in
      Returns (io_ret res, io_out res, set_data c (io_data res),
               {| errno := errno_after en (io_errno res);
                  trace := trace en ++ [ev_ioctl r] |})
  end.

Definition call_poll (c : compress D) (events timeout : Z) (en : env D)
  : outcome (Z * Z * compress D * env D) :=
  match ops c with
  | None => Fault
  | Some o =>
      let res := ops_poll o (data c) events timeout in
      Returns (poll_ret res, poll_revents res, set_data c (poll_data res),
               {| errno := errno_after en (poll_errno res);
                  trace := trace en ++ [ev_poll events timeout] |})
  end.

Definition call_write (c : compress D) (cbuf n : Z) (en : env D)
  : outcome (Z * compress D * env D) :=
  match ops c with
  | None => Fault
  | Some o =>
      let res := ops_write o (data c) cbuf n in
      Returns (xfer_ret res, set_data c (xfer_data res),
               {| errno := errno_after en (xfer_errno res);
                  trace := trace en ++ [ev_write cbuf n] |})
  end.

Definition call_read (c : compress D) (cbuf n : Z) (en : env D)
  : outcome (Z * compress D * env D) :=
  match ops c with
  | None => Fault
  | Some o =>
      let res := ops_read o (data c) cbuf n in
      Returns (xfer_ret res, set_data c (xfer_data res),
               {| errno := errno_after en (xfer_errno res);
                  trace := trace en ++ [ev_read cbuf n] |})
  end.

Definition get_compress_version (c : compress D) (en : env D)
  : outcome (Z * compress D * env D) :=
  '(rc, version, c1, e1) ← call_ioctl c SNDRV_COMPRESS_IOCTL_VERSION en;
  if truthy rc then
    let '(_, c2, e2) := oops c1 (errno e1) "cant read version" e1 in
    Returns (-1, c2, e2)
  else Returns (version, c1, e1).

(** *** Queries *)

(** [compress_get_hpointer(compress, avail, tstamp)]: the status, and on
    success what is stored through [avail] and [tstamp].  [time] is a
    [__u64]; [time_t] and [long] are taken as 64-bit, so the assignments to
    [tv_sec] and [tv_nsec] keep its value. *)
Definition compress_get_hpointer (c : compress D) (en : env D)
  : outcome (Z * option (Z * timespec) * compress D * env D) :=
  if negb (truthy (is_compress_ready c)) then
    let '(r, c1, e1) := oops c ENODEV "device not ready" en in
    Returns (r, None, c1, e1)
  else
    '(rc, kavail, c1, e1) ← call_ioctl c SNDRV_COMPRESS_AVAIL en;
    if truthy rc then
      let '(r, c2, e2) := oops c1 (errno e1) "cannot get avail" e1 in
      Returns (r, None, c2, e2)
    else if 0 =? sampling_rate (tstamp kavail) then
      let '(r, c2, e2) := oops c1 ENODATA "sample rate unknown" e1 in
      Returns (r, None, c2, e2)
    else
      let avail_out := u32 (avail kavail) in
      let time := u64 (pcm_io_frames (tstamp kavail) / sampling_rate (tstamp kavail)) in
      let sec := time in
      let time := u64 (pcm_io_frames (tstamp kavail) mod sampling_rate (tstamp kavail)) in
      let nsec := u64 (time * 1000000000) / sampling_rate (tstamp kavail) in
      Returns (0, Some (avail_out, {| tv_sec := sec; tv_nsec := nsec |}), c1, e1).

Definition compress_get_tstamp (c : compress D) (en : env D)
  : outcome (Z * option (Z * Z) * compress D * env D) :=
  if negb (truthy (is_compress_ready c)) then
    let '(r, c1, e1) := oops c ENODEV "device not ready" en in
    Returns (r, None, c1, e1)
  else
    '(rc, ktstamp, c1, e1) ← call_ioctl c SNDRV_COMPRESS_TSTAMP en;
    if truthy rc then
      let '(r, c2, e2) := oops c1 (errno e1) "cannot get tstamp" e1 in
      Returns (r, None, c2, e2)
    else Returns (0, Some (pcm_io_frames ktstamp, sampling_rate ktstamp), c1, e1).

(** *** Lifecycle *)

Definition compress_start (c : compress D) (en : env D)
  : outcome (Z * compress D * env D) :=
  if negb (truthy (is_compress_ready c)) then
    Returns (oops c ENODEV "device not ready" en)
  else
    '(rc, _, c1, e1) ← call_ioctl c SNDRV_COMPRESS_START en;
    if truthy rc then Returns (oops c1 (errno e1) "cannot start the stream" e1)
    else Returns (0, set_running c1 1, e1).

Definition compress_stop (c : compress D) (en : env D)
  : outcome (Z * compress D * env D) :=
  if negb (truthy (is_compress_running c)) then
    Returns (oops c ENODEV "device not ready" en)
  else
    '(rc, _, c1, e1) ← call_ioctl c SNDRV_COMPRESS_STOP en;
    if truthy rc then Returns (oops c1 (errno e1) "cannot stop the stream" e1)
    else Returns (0, c1, e1).

Definition compress_pause (c : compress D) (en : env D)
  : outcome (Z * compress D * env D) :=
  if negb (truthy (is_compress_running c)) then
    Returns (oops c ENODEV "device not ready" en)
  else
    '(rc, _, c1, e1) ← call_ioctl c SNDRV_COMPRESS_PAUSE en;
    if truthy rc then Returns (oops c1 (errno e1) "cannot pause the stream" e1)
    else Returns (0, c1, e1).

Definition compress_resume (c : compress D) (en : env D)
  : outcome (Z * compress D * env D) :=
  '(rc, _, c1, e1) ← call_ioctl c SNDRV_COMPRESS_RESUME en;
  if truthy rc then Returns (oops c1 (errno e1) "cannot resume the stream" e1)
  else Returns (0, c1, e1).

Definition compress_drain (c : compress D) (en : env D)
  : outcome (Z * compress D * env D) :=
  if negb (truthy (is_compress_running c)) then
    Returns (oops c ENODEV "device not ready" en)
  else
    '(rc, _, c1, e1) ← call_ioctl c SNDRV_COMPRESS_DRAIN en;
    if truthy rc then Returns (oops c1 (errno e1) "cannot drain the stream" e1)
    else Returns (0, c1, e1).

Definition NL : string := String (Ascii.ascii_of_nat 10) EmptyString.

Definition compress_partial_drain (c : compress D) (en : env D)
  : outcome (Z * compress D * env D) :=
  if negb (truthy (is_compress_running c)) then
    Returns (oops c ENODEV "device not ready" en)
  else if negb (truthy (next_track c)) then
    Returns (oops c EPERM "next track not signalled" en)
  else
    '(rc, _, c1, e1) ← call_ioctl c SNDRV_COMPRESS_PARTIAL_DRAIN en;
    if truthy rc then
      Returns (oops c1 (errno e1) ("cannot drain the stream" +:+ NL) e1)
    else Returns (0, set_next_track c1 0, e1).

Definition compress_next_track (c : compress D) (en : env D)
  : outcome (Z * compress D * env D) :=
  if negb (truthy (is_compress_running c)) then
    Returns (oops c ENODEV "device not ready" en)
  else if negb (truthy (gapless_metadata c)) then
    Returns (oops c EPERM "metadata not set" en)
  else
    '(rc, _, c1, e1) ← call_ioctl c SNDRV_COMPRESS_NEXT_TRACK en;
    if truthy rc then
      Returns (oops c1 (errno e1) ("cannot set next track" +:+ NL) e1)
    else Returns (0, set_gapless_metadata (set_next_track c1 1) 0, e1).

Definition compress_set_gapless_metadata (c : compress D)
  (mdata : compr_gapless_mdata) (en : env D)
  : outcome (Z * compress D * env D) :=
  if negb (truthy (is_compress_ready c)) then
    Returns (oops c ENODEV "device not ready" en)
  else
    '(version, c1, e1) ← get_compress_version c en;
    if version <=? 0 then Returns (-1, c1, e1)
    else if version <? SNDRV_PROTOCOL_VERSION 0 1 1 then
      Returns (oops c1 ENXIO "gapless apis not supported in kernel" e1)
    else
      let metadata :=
        {| key := SNDRV_COMPRESS_ENCODER_PADDING; value0 := encoder_padding mdata |} in
      '(rc, _, c2, e2) ← call_ioctl c1 (SNDRV_COMPRESS_SET_METADATA metadata) e1;
      if truthy rc then
        Returns (oops c2 (errno e2) ("can't set metadata for stream" +:+ NL) e2)
      else
        let metadata :=
          {| key := SNDRV_COMPRESS_ENCODER_DELAY; value0 := encoder_delay mdata |} in
        '(rc, _, c3, e3) ← call_ioctl c2 (SNDRV_COMPRESS_SET_METADATA metadata) e2;
        if truthy rc then
          Returns (oops c3 (errno e3) ("can't set metadata for stream" +:+ NL) e3)
        else Returns (0, set_gapless_metadata c3 1, e3).

(** [memcpy(&compress->config->codec, codec, sizeof(struct snd_codec))] of
    line 637.  [config->codec] is a pointer: [fill_compress_params] hands it
    to [memcpy] as the source of the descriptor (line 179).  It is the last
    member of the block that [compress_open] allocates with
    [calloc(1, sizeof *config)] (line 203), so the room from [&config->codec]
    to the end of the block is one pointer, and a whole descriptor (the id
    and the parameter words after it) is copied there: the copy writes past
    the end of the block, which C leaves undefined.  No configuration comes
    out of it. *)
Definition store_codec (cfg : compr_config) (cd : snd_codec) : outcome compr_config :=
  Fault.

Definition compress_set_codec_params (c : compress D)
  (codec_arg : option snd_codec) (en : env D)
  : outcome (Z * compress D * env D) :=
  if negb (truthy (is_compress_ready c)) || negb (truthy (next_track c)) then
    Returns (oops c ENODEV "device not ready" en)
  else
    match config c with
    | None => Fault
    | Some cfg =>
        match codec_arg with
        | None => Fault
        | Some cd =>
            let params :=
              {| buffer := {| buffer_fragment_size := fragment_size cfg;
                              buffer_fragments := fragments cfg |};
                 params_codec := cd |} in
            cfg' ← store_codec cfg cd;
            let c0 := set_config c (Some cfg') in
            '(rc, _, c1, e1) ← call_ioctl c0 (SNDRV_COMPRESS_SET_PARAMS params) en;
            if truthy rc then Returns (oops c1 (errno e1) "cannot set device" e1)
            else Returns (0, set_next_track c1 0, e1)
        end
    end.

Definition compress_set_max_poll_wait (c : compress D) (milliseconds : Z)
  : compress D :=
  set_max_poll_wait_ms c milliseconds.

Definition compress_nonblock (c : compress D) (nonblock : Z) : compress D :=
  set_nonblocking c (if truthy nonblock then 1 else 0).

Definition compress_wait (c : compress D) (timeout_ms : Z) (en : env D)
  : outcome (Z * compress D * env D) :=
  '(ret, revents, c1, e1) ← call_poll c (Z.lor POLLOUT POLLIN) timeout_ms en;
  if (0 <? ret) && truthy (Z.land revents POLLERR) then
    Returns (oops c1 EIO "poll returned error!" e1)
  else if (0 <? ret) && truthy (Z.land revents (Z.lor POLLOUT POLLIN)) then
    Returns (0, c1, e1)
  else if ret =? 0 then Returns (oops c1 ETIME "poll timed out" e1)
  else if ret <? 0 then Returns (oops c1 (errno e1) "poll error" e1)
  else Returns (oops c1 EIO "poll signalled unhandled event" e1).

(** *** The flow-controlled transfer loops *)

(** The variables a transfer loop updates: the remaining [size]
    ([unsigned int]), the running [total] ([int]), the position of [cbuf]
    in the caller's buffer, and the handle and process state. *)
Record xfer : Type := {
  x_size : Z;
  x_total : Z;
  x_cbuf : Z;
  x_c : compress D;
  x_env : env D
}.

(** One pass through the body of [while (size)]: go round again, leave the
    function with a result, or stop on undefined behaviour. *)
Inductive pass : Type :=
| Next (s : xfer)
| Exit (r : Z * compress D * env D)
| Crash.

Definition pass_of (m : outcome pass) : pass :=
  match m with
  | Returns p => p
  | _ => Crash
  end.

(** The tail of the body of [compress_write], from [/* write avail bytes */]. *)
Definition write_avail (s : xfer) (av : Z) (c : compress D) (en : env D) : pass :=
  let to_write := if x_size s >? av then s32 av else s32 (x_size s) in
  pass_of (
    '(written, c1, e1) ← call_write c (x_cbuf s) to_write en;
    if written <? 0 then
      if errno e1 =? EBADFD then Returns (Exit (x_total s, c1, e1))
      else Returns (Exit (oops c1 (errno e1) "write failed!" e1))
    else if INT_MAX <? x_total s + written then Fault
    else
      Returns (Next {| x_size := u32 (x_size s - written);
                       x_total := x_total s + written;
                       x_cbuf := x_cbuf s + written;
                       x_c := c1; x_env := e1 |})).

Definition write_pass (frag_size : Z) (s : xfer) : pass :=
  pass_of (
    '(rc, av, c1, e1) ← call_ioctl (x_c s) SNDRV_COMPRESS_AVAIL (x_env s);
    if truthy rc then Returns (Exit (oops c1 (errno e1) "cannot get avail" e1))
    else if (avail av <? frag_size) && (avail av <? x_size s) then
      if truthy (nonblocking c1) then Returns (Exit (x_total s, c1, e1))
      else
        '(ret, revents, c2, e2) ← call_poll c1 POLLOUT (max_poll_wait_ms c1) e1;
        if truthy (Z.land revents POLLERR) then
          Returns (Exit (oops c2 EIO "poll returned error!" e2))
        else if (ret =? 0) || ((ret <? 0) && (errno e2 =? EBADFD)) then
          Returns (Exit (x_total s, c2, e2))
        else if ret <? 0 then Returns (Exit (oops c2 (errno e2) "poll error" e2))
        else if truthy (Z.land revents POLLOUT) then
          Returns (Next {| x_size := x_size s; x_total := x_total s;
                           x_cbuf := x_cbuf s; x_c := c2; x_env := e2 |})
        else Returns (write_avail s (avail av) c2 e2)
    else Returns (write_avail s (avail av) c1 e1)).

Fixpoint write_loop (fuel : nat) (frag_size : Z) (s : xfer)
  : outcome (Z * compress D * env D) :=
  if x_size s =? 0 then Returns (x_total s, x_c s, x_env s)
  else
    match fuel with
    | O => OutOfFuel
    | S fuel' =>
        match write_pass frag_size s with
        | Next s' => write_loop fuel' frag_size s'
        | Exit r => Returns r
        | Crash => Fault
        end
    end.

(** [compress_write(compress, buf, size)]; [buf] is position [0] of the
    caller's buffer. *)
Definition compress_write (fuel : nat) (c : compress D) (size : Z) (en : env D)
  : outcome (Z * compress D * env D) :=
  match config c with
  | None => Fault
  | Some cfg =>
      let frag_size := fragment_size cfg in
      if negb (truthy (Z.land (flags c) COMPRESS_IN)) then
        Returns (oops c EINVAL "Invalid flag set" en)
      else if negb (truthy (is_compress_ready c)) then
        Returns (oops c ENODEV "device not ready" en)
      else
        write_loop fuel frag_size
          {| x_size := size; x_total := 0; x_cbuf := 0; x_c := c; x_env := en |}
  end.

(** The tail of the body of [compress_read], from [/* read avail bytes */]. *)
Definition read_avail (s : xfer) (av : Z) (c : compress D) (en : env D) : pass :=
  let to_read := if x_size s >? av then s32 av else s32 (x_size s) in
  pass_of (
    '(num_read, c1, e1) ← call_read c (x_cbuf s) to_read en;
    if num_read <? 0 then
      if errno e1 =? EBADFD then Returns (Exit (x_total s, c1, e1))
      else Returns (Exit (oops c1 (errno e1) "read failed!" e1))
    else if INT_MAX <? x_total s + num_read then Fault
    else
      Returns (Next {| x_size := u32 (x_size s - num_read);
                       x_total := x_total s + num_read;
                       x_cbuf := x_cbuf s + num_read;
                       x_c := c1; x_env := e1 |})).

Definition read_pass (frag_size : Z) (s : xfer) : pass :=
  pass_of (
    '(rc, av, c1, e1) ← call_ioctl (x_c s) SNDRV_COMPRESS_AVAIL (x_env s);
    if truthy rc then Returns (Exit (oops c1 (errno e1) "cannot get avail" e1))
    else if (avail av <? frag_size) && (avail av <? x_size s) then
      if truthy (nonblocking c1) then Returns (Exit (x_total s, c1, e1))
      else
        '(ret, revents, c2, e2) ← call_poll c1 POLLIN (max_poll_wait_ms c1) e1;
        if truthy (Z.land revents POLLERR) then
          Returns (Exit (oops c2 EIO "poll returned error!" e2))
        else if (ret =? 0) || ((ret <? 0) && (errno e2 =? EBADFD)) then
          Returns (Exit (x_total s, c2, e2))
        else if ret <? 0 then Returns (Exit (oops c2 (errno e2) "poll error" e2))
        else if truthy (Z.land revents POLLIN) then
          Returns (Next {| x_size := x_size s; x_total := x_total s;
                           x_cbuf := x_cbuf s; x_c := c2; x_env := e2 |})
        else Returns (read_avail s (avail av) c2 e2)
    else Returns (read_avail s (avail av) c1 e1)).

Fixpoint read_loop (fuel : nat) (frag_size : Z) (s : xfer)
  : outcome (Z * compress D * env D) :=
  if x_size s =? 0 then Returns (x_total s, x_c s, x_env s)
  else
    match fuel with
    | O => OutOfFuel
    | S fuel' =>
        match read_pass frag_size s with
        | Next s' => read_loop fuel' frag_size s'
        | Exit r => Returns r
        | Crash => Fault
        end
    end.

Definition compress_read (fuel : nat) (c : compress D) (size : Z) (en : env D)
  : outcome (Z * compress D * env D) :=
  match config c with
  | None => Fault
  | Some cfg =>
      let frag_size := fragment_size cfg in
      if negb (truthy (Z.land (flags c) COMPRESS_OUT)) then
        Returns (oops c EINVAL "Invalid flag set" en)
      else if negb (truthy (is_compress_ready c)) then
        Returns (oops c ENODEV "device not ready" en)
      else
        read_loop fuel frag_size
          {| x_size := size; x_total := 0; x_cbuf := 0; x_c := c; x_env := en |}
  end.

End Handle.

Arguments x_size {D} _.
Arguments x_total {D} _.
Arguments x_cbuf {D} _.
Arguments x_c {D} _.
Arguments x_env {D} _.
Arguments Build_xfer {D}.
Arguments Next {D}.
Arguments Exit {D}.
Arguments Crash {D}.

(** ** Opening, closing and probing *)

(** A [struct compress *] held by a caller: the address of the static
    [bad_compress], or the address of a block obtained from [calloc]. *)
Inductive handle_ptr : Type :=
| bad_ptr
| live_ptr (a : nat).

(** The process state seen by [compress_open] and [compress_close]: the
    static sentinel, the live handle blocks (each with the configuration
    block it owns) and the number of blocks [calloc] can still hand out. *)
Record world (D : Type) : Type := {
  w_env : env D;
  bad_compress : compress D;
  heap : gmap nat (compress D);
  heap_room : nat
}.
Arguments w_env {D} _.
Arguments bad_compress {D} _.
Arguments heap {D} _.
Arguments heap_room {D} _.

Section World.

Context {D : Type}.
Variable strerror : Z -> string.

(** [snd_utils.h]: resolving a node and classifying it. *)
Variable snd_utils_get_dev_node : Z -> Z -> Z -> node.
Variable snd_utils_get_node_type : node -> Z.

(** The two backends and the null [void *]. *)
Variable compr_hw_ops : compress_ops D.
Variable compr_plug_ops : compress_ops D.
Variable null_data : D.

Definition with_env (w : world D) (en : env D) : world D :=
  {| w_env := en; bad_compress := bad_compress w; heap := heap w;
     heap_room := heap_room w |}.

(** [oops(&bad_compress, e, ...)] *)
Definition oops_bad (e : Z) (msg : string) (w : world D) : world D :=
  let '(_, b, en) := oops strerror (bad_compress w) e msg (w_env w) in
  {| w_env := en; bad_compress := b; heap := heap w; heap_room := heap_room w |}.

(** [calloc] of one block: [None] when the allocator is exhausted. *)
Definition calloc (w : world D) : option (world D) :=
  match heap_room w with
  | O => None
  | S n =>
      Some {| w_env := w_env w; bad_compress := bad_compress w; heap := heap w;
              heap_room := n |}
  end.

(** A failed [calloc] leaves [ENOMEM] in [errno]. *)
Definition calloc_failed (w : world D) : world D :=
  with_env w (set_errno (w_env w) ENOMEM).

(** [free] of one block that is not in [heap]. *)
Definition free (w : world D) : world D :=
  {| w_env := w_env w; bad_compress := bad_compress w; heap := heap w;
     heap_room := S (heap_room w) |}.

(** The block [calloc(1, sizeof(struct compress))] returns. *)
Definition zeroed_compress : compress D :=
  {| fd := 0; flags := 0; error := ""; config := None; running := 0;
     max_poll_wait_ms := 0; nonblocking := 0; gapless_metadata := 0;
     next_track := 0; ops := None; data := null_data; snd_node := 0 |}.

(** The block [calloc] returns for the configuration. *)
Definition zeroed_config : compr_config :=
  {| fragment_size := 0; fragments := 0;
     codec := {| id := 0; codec_words := [] |} |}.

(** [static struct compress bad_compress = { .fd = -1 }] *)
Definition bad_compress_init : compress D := set_fd zeroed_compress (-1).

Definition select_ops (n : node) : compress_ops D :=
  if snd_utils_get_node_type n =? SND_NODE_TYPE_PLUGIN then compr_plug_ops
  else compr_hw_ops.

Definition fill_compress_params (cfg : compr_config) : snd_compr_params :=
  {| buffer := {| buffer_fragment_size := fragment_size cfg;
                  buffer_fragments := fragments cfg |};
     params_codec := codec cfg |}.

(** The "don't care" defaults of [compress_open]. *)
Definition fill_defaults (cfg : compr_config) (caps : snd_compr_caps) : compr_config :=
  if (fragment_size cfg =? 0) || (fragments cfg =? 0) then
    {| fragment_size := min_fragment_size caps; fragments := max_fragments caps;
       codec := codec cfg |}
  else cfg.

(** What the device answers to the capability query made while opening
    [(card, device)] with [flags]. *)
Definition open_caps (card device flags : Z) : snd_compr_caps :=
  let n := snd_utils_get_dev_node card device NODE_COMPRESS in
  let o := select_ops n in
  io_out (ops_ioctl o (open_data (ops_open o card device flags n))
            SNDRV_COMPRESS_GET_CAPS).

(** [compress_open(card, device, flags, config)]: the pointer returned,
    the caller's configuration afterwards, and the process state. *)
Definition compress_open (card device flags : Z) (config_arg : option compr_config)
  (w : world D) : handle_ptr * option compr_config * world D :=
  match config_arg with
  | None => (bad_ptr, None, oops_bad EINVAL "passed bad config" w)
  | Some cfg =>
    match calloc w with
    | None =>
        let w0 := calloc_failed w in
        (bad_ptr, config_arg,
         oops_bad (errno (w_env w0)) "cannot allocate compress object" w0)
    | Some w1 =>
      let c := set_gapless_metadata (set_next_track zeroed_compress 0) 0 in
      match calloc w1 with
      | None => (bad_ptr, config_arg, free (calloc_failed w1))
      | Some w2 =>
        let c := set_config c (Some zeroed_config) in
        let c := set_max_poll_wait_ms c DEFAULT_MAX_POLL_WAIT_MS in
        let c :=
          {| fd := fd c; flags := flags; error := error c; config := config c;
             running := running c; max_poll_wait_ms := max_poll_wait_ms c;
             nonblocking := nonblocking c; gapless_metadata := gapless_metadata c;
             next_track := next_track c; ops := ops c; data := data c;
             snd_node := snd_node c |} in
        if negb (truthy (Z.land flags COMPRESS_OUT) || truthy (Z.land flags COMPRESS_IN))
        then
          (bad_ptr, config_arg,
           free (free (oops_bad EINVAL
                         "can't deduce device direction from given flags" w2)))
        else
          let n := snd_utils_get_dev_node card device NODE_COMPRESS in
          let e3 := emit (w_env w2) (ev_get_dev_node card device NODE_COMPRESS n) in
          let o := select_ops n in
          let r := ops_open o card device flags n in
          let e4 :=
            {| errno := errno_after e3 (open_errno r);
               trace := trace e3 ++ [ev_open card device flags n (open_fd r)] |} in
          let c :=
            {| fd := open_fd r; flags := flags; error := error c; config := config c;
               running := running c; max_poll_wait_ms := max_poll_wait_ms c;
               nonblocking := nonblocking c; gapless_metadata := gapless_metadata c;
               next_track := next_track c; ops := Some o; data := open_data r;
               snd_node := n |} in
          if open_fd r <? 0 then
            (bad_ptr, config_arg,
             free (free (oops_bad (errno e4)
                           ("cannot open card(" +:+ pretty card +:+ ") device("
                              +:+ pretty device +:+ ")")
                           (with_env w2 e4))))
          else
            let rc := ops_ioctl o (data c) SNDRV_COMPRESS_GET_CAPS in
            let c := set_data c (io_data rc) in
            let e5 :=
              {| errno := errno_after e4 (io_errno rc);
                 trace := trace e4 ++ [ev_ioctl SNDRV_COMPRESS_GET_CAPS] |} in
            if truthy (io_ret rc) then
              let '(_, c, e6) := oops strerror c (errno e5) "cannot get device caps" e5 in
              let e7 := emit e6 (ev_put_dev_node (snd_node c)) in
              let e8 := emit e7 (ev_close (data c)) in
              (bad_ptr, config_arg, free (free (with_env w2 e8)))
            else
              let cfg' := fill_defaults cfg (io_out rc) in
              let c := set_config c (Some cfg') in
              let params := fill_compress_params cfg' in
              let rs := ops_ioctl o (data c) (SNDRV_COMPRESS_SET_PARAMS params) in
              let c := set_data c (io_data rs) in
              let e6 :=
                {| errno := errno_after e5 (io_errno rs);
                   trace := trace e5 ++ [ev_ioctl (SNDRV_COMPRESS_SET_PARAMS params)] |} in
              if truthy (io_ret rs) then
                let w3 := oops_bad (errno e6) "cannot set device" (with_env w2 e6) in
                let e7 := emit (w_env w3) (ev_put_dev_node (snd_node c)) in
                let e8 := emit e7 (ev_close (data c)) in
                (bad_ptr, Some cfg', free (free (with_env w3 e8)))
              else
                let a := fresh (dom (heap w2)) in
                (live_ptr a, Some cfg',
                 {| w_env := e6; bad_compress := bad_compress w2;
                    heap := <[a := c]> (heap w2); heap_room := heap_room w2 |})
      end
    end
  end.

(** [compress_close(compress)].  Closing a pointer that is not live is
    undefined. *)
Definition compress_close (p : handle_ptr) (w : world D) : outcome (world D) :=
  match p with
  | bad_ptr => Returns w
  | live_ptr a =>
      match heap w !! a with
      | None => Fault
      | Some c =>
          match ops c with
          | None => Fault
          | Some o =>
              let e1 := emit (w_env w) (ev_put_dev_node (snd_node c)) in
              let _ := ops_close o (data c) in
              let e2 := emit e1 (ev_close (data c)) in
              Returns
                {| w_env := e2; bad_compress := bad_compress w;
                   heap := delete a (heap w);
                   heap_room :=
                     match config c with
                     | Some _ => S (S (heap_room w))
                     | None => S (heap_room w)
                     end |}
          end
      end
  end.

(** [n] successive calls of [compress_close] on the same pointer. *)
Fixpoint close_times (n : nat) (p : handle_ptr) (w : world D) : outcome (world D) :=
  match n with
  | O => Returns w
  | S n' => w' ← compress_close p w; close_times n' p w'
  end.

(** [caps.codecs] is an array of [MAX_NUM_CODECS] words (the kernel's
    [sound/compress_params.h]).  The [codecs] list of a capability record
    gives its leading entries; the entries after the end of the list are
    zero. *)
Definition MAX_NUM_CODECS : nat := 32.

Definition codecs_array (caps : snd_compr_caps) : list Z :=
  firstn MAX_NUM_CODECS (codecs caps ++ repeat 0 MAX_NUM_CODECS).

(** The loop of [_is_codec_type_supported], from index [i] on: [left]
    is [caps.num_codecs - i] and [arr] is what the array holds from
    [codecs[i]] on.  Only [i < caps.num_codecs] bounds the loop, so with the
    array used up it reads [codecs[MAX_NUM_CODECS]], past the end of the
    array. *)
Fixpoint codec_scan (left : nat) (arr : list Z) (codec_id : Z) : outcome bool :=
  match left with
  | O => Returns false
  | S left' =>
      match arr with
      | [] => Fault
      | x :: arr' =>
          if x =? codec_id then Returns true else codec_scan left' arr' codec_id
      end
  end.

Definition codec_listed (caps : snd_compr_caps) (cd : snd_codec) : outcome bool :=
  codec_scan (Z.to_nat (num_codecs caps)) (codecs_array caps) (id cd).

Definition _is_codec_type_supported (o : compress_ops D) (d : D) (cd : snd_codec)
  (w : world D) : outcome (bool * D * world D) :=
  let rc := ops_ioctl o d SNDRV_COMPRESS_GET_CAPS in
  let e1 :=
    {| errno := errno_after (w_env w) (io_errno rc);
       trace := trace (w_env w) ++ [ev_ioctl SNDRV_COMPRESS_GET_CAPS] |} in
  if truthy (io_ret rc) then
    Returns (false, io_data rc,
             oops_bad (errno e1) "cannot get device caps" (with_env w e1))
  else
    found ← codec_listed (io_out rc) cd;
    Returns (found, io_data rc, with_env w e1).

Definition is_codec_supported (card device flags : Z) (cd : snd_codec) (w : world D)
  : outcome (bool * world D) :=
  let snd_node := snd_utils_get_dev_node card device NODE_COMPRESS in
  let e1 := emit (w_env w) (ev_get_dev_node card device NODE_COMPRESS snd_node) in
  let o := select_ops snd_node in
  let r := ops_open o card device flags 0 in
  let e2 :=
    {| errno := errno_after e1 (open_errno r);
       trace := trace e1 ++ [ev_open card device flags 0 (open_fd r)] |} in
  if open_fd r <? 0 then
    Returns (false,
             oops_bad (errno e2)
               ("cannot open card " +:+ pretty card +:+ ", device " +:+ pretty device)
               (with_env w e2))
  else
    '(ret, d, w1) ← _is_codec_type_supported o (open_data r) cd (with_env w e2);
    let e3 := emit (w_env w1) (ev_put_dev_node snd_node) in
    let _ := ops_close o d in
    let e4 := emit e3 (ev_close d) in
    Returns (ret, with_env w1 e4).

End World.

(** ** Sequences of calls on one handle *)

Section Protocol.

Context {D : Type}.
Variable strerror : Z -> string.

(** The calls a client can make on a handle it holds. *)
Inductive api_call : Type :=
| api_start
| api_stop
| api_pause
| api_resume
| api_drain
| api_partial_drain
| api_next_track
| api_set_gapless_metadata (mdata : compr_gapless_mdata)
| api_set_codec_params (codec_arg : option snd_codec)
| api_write (fuel : nat) (size : Z)
| api_read (fuel : nat) (size : Z)
| api_get_hpointer
| api_get_tstamp
| api_set_max_poll_wait (milliseconds : Z)
| api_nonblock (nonblock : Z)
| api_wait (timeout_ms : Z).

(** The [int] a call returns ([0] for the [void] setters), the handle and
    the process state after it. *)
Definition run_call (a : api_call) (c : compress D) (en : env D)
  : outcome (Z * compress D * env D) :=
  match a with
  | api_start => compress_start strerror c en
  | api_stop => compress_stop strerror c en
  | api_pause => compress_pause strerror c en
  | api_resume => compress_resume strerror c en
  | api_drain => compress_drain strerror c en
  | api_partial_drain => compress_partial_drain strerror c en
  | api_next_track => compress_next_track strerror c en
  | api_set_gapless_metadata mdata =>
      compress_set_gapless_metadata strerror c mdata en
  | api_set_codec_params codec_arg =>
      compress_set_codec_params strerror c codec_arg en
  | api_write fuel size => compress_write strerror fuel c size en
  | api_read fuel size => compress_read strerror fuel c size en
  | api_get_hpointer =>
      '(r, _, c1, e1) ← compress_get_hpointer strerror c en; Returns (r, c1, e1)
  | api_get_tstamp =>
      '(r, _, c1, e1) ← compress_get_tstamp strerror c en; Returns (r, c1, e1)
  | api_set_max_poll_wait ms => Returns (0, compress_set_max_poll_wait c ms, en)
  | api_nonblock nb => Returns (0, compress_nonblock c nb, en)
  | api_wait timeout_ms => compress_wait strerror c timeout_ms en
  end.

(** Running a list of calls in order; the history pairs each call with
    what it returned, oldest first. *)
Fixpoint run_calls (l : list api_call) (c : compress D) (en : env D)
  : outcome (list (api_call * Z) * compress D * env D) :=
  match l with
  | [] => Returns ([], c, en)
  | a :: l' =>
      '(r, c1, e1) ← run_call a c en;
      '(h, c2, e2) ← run_calls l' c1 e1;
      Returns ((a, r) :: h, c2, e2)
  end.

Definition ok_set_gapless_metadata (x : api_call * Z) : bool :=
  match fst x with
  | api_set_gapless_metadata _ => snd x =? 0
  | _ => false
  end.

Definition ok_next_track (x : api_call * Z) : bool :=
  match fst x with
  | api_next_track => snd x =? 0
  | _ => false
  end.

Definition ok_partial_drain (x : api_call * Z) : bool :=
  match fst x with
  | api_partial_drain => snd x =? 0
  | _ => false
  end.

(** The part of a history after its last entry satisfying [p] (the whole
    history when there is none). *)
Fixpoint since_last {A : Type} (p : A -> bool) (h : list A) : list A :=
  match h with
  | [] => []
  | x :: h' =>
      if existsb p h' then since_last p h'
      else if p x then h' else x :: h'
  end.

(** [next_track] succeeded since the last successful [partial_drain]. *)
Definition next_track_since_drain (h : list (api_call * Z)) : bool :=
  existsb ok_next_track (since_last ok_partial_drain h).

(** *** Reaching a pass of a transfer loop *)

(** The state before pass [n] of the loop, if the earlier passes all went
    round again. *)
Fixpoint write_passes (n : nat) (frag_size : Z) (s : @xfer D) : option (@xfer D) :=
  match n with
  | O => Some s
  | S n' =>
      if x_size s =? 0 then None
      else
        match write_pass strerror frag_size s with
        | Next s' => write_passes n' frag_size s'
        | _ => None
        end
  end.


(** The state a transfer starts its loop in. *)
Definition xfer_start (c : compress D) (size : Z) (en : env D) : @xfer D :=
  {| x_size := size; x_total := 0; x_cbuf := 0; x_c := c; x_env := en |}.

(** The contract of the backend's [read] and [write]: an [int] comes back,
    and never more bytes than were asked for; and the availability it
    reports is a [__u64]. *)
Definition transfer_contract (o : compress_ops D) : Prop :=
  forall d cbuf n,
    (INT_MIN <= xfer_ret (ops_write o d cbuf n) <= INT_MAX) /\
    (0 <= n -> xfer_ret (ops_write o d cbuf n) <= n) /\
    (INT_MIN <= xfer_ret (ops_read o d cbuf n) <= INT_MAX) /\
    (0 <= n -> xfer_ret (ops_read o d cbuf n) <= n) /\
    0 <= avail (io_out (ops_ioctl o d SNDRV_COMPRESS_AVAIL)).

(** The count handed to the backend for a transfer: [min(avail, size)],
    converted to [int]. *)
Definition transfer_count (size av : Z) : Z :=
  if size >? av then s32 av else s32 size.

(** No poll among the calls. *)
Definition is_poll (ev : event D) : bool :=
  match ev with
  | ev_poll _ _ => true
  | _ => false
  end.


(** Everything of the handle but the error text and the backend data. *)
Definition same_ctl (c c' : compress D) : Prop :=
  fd c' = fd c /\ flags c' = flags c /\ config c' = config c /\
  running c' = running c /\ max_poll_wait_ms c' = max_poll_wait_ms c /\
  nonblocking c' = nonblocking c /\ gapless_metadata c' = gapless_metadata c /\
  next_track c' = next_track c /\ ops c' = ops c /\ snd_node c' = snd_node c.

Definition ok_start (x : api_call * Z) : bool :=
  match fst x with
  | api_start => snd x =? 0
  | _ => false
  end.

Definition ok_set_codec_params (x : api_call * Z) : bool :=
  match fst x with
  | api_set_codec_params _ => snd x =? 0
  | _ => false
  end.



End Protocol.

(** *** Further vocabulary *)

Section Reporting.

Context {D : Type}.
Variable strerror : Z -> string.

(** The handle and [errno] carry the report of one [oops]. *)
Definition reported (c : compress D) (en : env D) : Prop :=
  exists e msg, compress_get_error c = oops_text strerror e msg /\ errno en = e.

(** The calls that begin by testing that the device is ready (or
    running) and touch nothing else before. *)
Definition guarded (a : api_call) : bool :=
  match a with
  | api_start | api_stop | api_pause | api_drain | api_partial_drain
  | api_next_track | api_set_gapless_metadata _ | api_set_codec_params _
  | api_get_hpointer | api_get_tstamp => true
  | _ => false
  end.

(** A backend that always has room: every availability query succeeds
    and reports at least one fragment and at least one byte, and every
    transfer of [1 <= n <= INT_MAX] bytes moves between [1] and [n]. *)
Definition prompt_backend (o : compress_ops D) (frag_size : Z) : Prop :=
  (forall d,
     io_ret (ops_ioctl o d SNDRV_COMPRESS_AVAIL) = 0 /\
     frag_size <= avail (io_out (ops_ioctl o d SNDRV_COMPRESS_AVAIL)) /\
     1 <= avail (io_out (ops_ioctl o d SNDRV_COMPRESS_AVAIL))) /\
  (forall d cbuf n,
     1 <= n <= INT_MAX ->
     1 <= xfer_ret (ops_write o d cbuf n) <= n /\
     1 <= xfer_ret (ops_read o d cbuf n) <= n).

End Reporting.

Section TransferEvents.

Context {D : Type}.

(** The external calls a write may make: the availability query, a poll
    for [POLLOUT] with the given timeout, and the backend's write. *)
Definition write_event (wait : Z) (ev : event D) : bool :=
  match ev with
  | ev_ioctl r => match r with SNDRV_COMPRESS_AVAIL => true | _ => false end
  | ev_poll events timeout => (events =? POLLOUT) && (timeout =? wait)
  | ev_write _ _ => true
  | _ => false
  end.

(** The same for a read, polling for [POLLIN]. *)
Definition read_event (wait : Z) (ev : event D) : bool :=
  match ev with
  | ev_ioctl r => match r with SNDRV_COMPRESS_AVAIL => true | _ => false end
  | ev_poll events timeout => (events =? POLLIN) && (timeout =? wait)
  | ev_read _ _ => true
  | _ => false
  end.

(** [en'] extends the trace of [en] by events that all pass [ok]. *)
Definition adds_only (ok : event D -> bool) (en en' : env D) : Prop :=
  exists evs, trace en' = trace en ++ evs /\ forallb ok evs = true.

End TransferEvents.


(** ** A device for running the code on concrete inputs *)

Module Demo.

(** The backend data lists the room the device has for each of the next
    transfers; a transfer uses up the head of the list. *)
Definition dev : Type := list N.

Definition demo_caps : snd_compr_caps :=
  {| num_codecs := 2; min_fragment_size := 1024; max_fragment_size := 65536;
     min_fragments := 2; max_fragments := 8; codecs := [1; 3] |}.

Definition demo_tstamp : snd_compr_tstamp :=
  {| byte_offset := 0; copied_total := 0; pcm_frames := 0;
     pcm_io_frames := 96001; sampling_rate := 48000 |}.

Definition ok {T : Type} (d : dev) (out : T) : ioctl_res dev T :=
  {| io_ret := 0; io_errno := None; io_out := out; io_data := d |}.

Definition demo_ioctl (version : Z) (T : Type) (d : dev) (r : ioctl_req T)
  : ioctl_res dev T :=
  match r in ioctl_req T0 return ioctl_res dev T0 with
  | SNDRV_COMPRESS_IOCTL_VERSION => ok d version
  | SNDRV_COMPRESS_GET_CAPS => ok d demo_caps
  | SNDRV_COMPRESS_AVAIL =>
      ok d {| avail := Z.of_N (hd 0%N d); tstamp := demo_tstamp |}
  | SNDRV_COMPRESS_TSTAMP => ok d demo_tstamp
  | _ => ok d tt
  end.

(** A transfer moves what it is asked to move, at most 64 KiB at a time. *)
Definition demo_moved (n : Z) : Z :=
  if n <? 0 then 0 else if 65536 <? n then 65536 else n.

Definition demo_xfer (d : dev) (cbuf n : Z) : xfer_res dev :=
  {| xfer_ret := demo_moved n; xfer_errno := None; xfer_data := tl d |}.

(** The device is paused: a poll reports [ret] with [revents], and
    [EBADFD] in [errno]. *)
Definition demo_poll (ret revents : Z) (d : dev) (events timeout : Z)
  : poll_res dev :=
  {| poll_ret := ret; poll_revents := revents; poll_errno := Some EBADFD;
     poll_data := d |}.

Definition demo_ops (version ret revents : Z) : compress_ops dev :=
  {| ops_open := fun card device flags n =>
       {| open_fd := 3; open_errno := None; open_data := [2048%N] |};
     ops_close := fun _ => tt;
     ops_ioctl := demo_ioctl version;
     ops_read := demo_xfer;
     ops_write := demo_xfer;
     ops_poll := demo_poll ret revents |}.

(** A backend whose device cannot be opened. *)
Definition dead_ops : compress_ops dev :=
  {| ops_open := fun card device flags n =>
       {| open_fd := -1; open_errno := Some ENODEV; open_data := [] |};
     ops_close := fun _ => tt;
     ops_ioctl := demo_ioctl 0;
     ops_read := demo_xfer;
     ops_write := demo_xfer;
     ops_poll := demo_poll 0 0 |}.

Definition demo_strerror (e : Z) : string := "error " +:+ pretty e.

(** Card [c] resolves to node [c + 1]; node [2] is plugin-backed. *)
Definition demo_get_dev_node (card device kind : Z) : node := card + 1.
Definition demo_get_node_type (n : node) : Z := if n =? 2 then 1 else 0.

Definition demo_env : env dev := {| errno := 0; trace := [] |}.

Definition demo_codec : snd_codec := {| id := 3; codec_words := [2; 2; 48000] |}.

Definition demo_config : compr_config :=
  {| fragment_size := 1024; fragments := 4; codec := demo_codec |}.

(** An opened handle on the device, as [compress_open] leaves it. *)
Definition demo_handle (o : compress_ops dev) (dir : Z) : compress dev :=
  {| fd := 3; flags := dir; error := ""; config := Some demo_config;
     running := 0; max_poll_wait_ms := DEFAULT_MAX_POLL_WAIT_MS;
     nonblocking := 0; gapless_metadata := 0; next_track := 0;
     ops := Some o; data := [2048%N]; snd_node := 1 |}.

(** A started handle whose gapless metadata has been accepted. *)
Definition armed_handle : compress dev :=
  set_gapless_metadata (set_running (demo_handle (demo_ops 258 0 0) COMPRESS_IN) 1) 1.

(** What a run on the device came to. *)
Definition value_of {A : Type} (dflt : A) (o : outcome (A * compress dev * env dev))
  : A :=
  match o with
  | Returns (v, _, _) => v
  | _ => dflt
  end.

Definition handle_of {A : Type} (o : outcome (A * compress dev * env dev))
  : compress dev :=
  match o with
  | Returns (_, c, _) => c
  | _ => demo_handle dead_ops 0
  end.

Definition env_of {A : Type} (o : outcome (A * compress dev * env dev)) : env dev :=
  match o with
  | Returns (_, _, e) => e
  | _ => demo_env
  end.

Definition one_shot_first : compress dev * env dev :=
  Eval vm_compute in
    (let o := compress_next_track demo_strerror armed_handle demo_env in
     (handle_of o, env_of o)).

Definition one_shot_calls : list (api_call * Z) * compress dev * env dev :=
  Eval vm_compute in
    (let o := run_calls demo_strerror [api_pause; api_write 4 100; api_resume]
                (fst one_shot_first) (snd one_shot_first) in
     (value_of [] o, handle_of o, env_of o)).

Definition demo_mdata : compr_gapless_mdata :=
  {| encoder_delay := 576; encoder_padding := 1024 |}.

(** A fresh handle driven up to an armed next track. *)
Definition to_next_track : list (api_call * Z) * compress dev * env dev :=
  Eval vm_compute in
    (let o := run_calls demo_strerror
                [api_start; api_set_gapless_metadata demo_mdata; api_next_track]
                (demo_handle (demo_ops 258 0 0) COMPRESS_IN) demo_env in
     (value_of [] o, handle_of o, env_of o)).

Definition drain_after_next_track : compress dev * env dev :=
  Eval vm_compute in
    (let o := compress_partial_drain demo_strerror (snd (fst to_next_track))
                (snd to_next_track) in
     (handle_of o, env_of o)).

(** A write of 4096 bytes on a device with room for 2048: the state
    after the first pass, and what the second availability query returns. *)
Definition nonblocking_handle : compress dev :=
  set_nonblocking (demo_handle (demo_ops 258 0 0) COMPRESS_IN) 1.

Definition second_pass (c : compress dev) : @xfer dev :=
  default (xfer_start c 4096 demo_env)
    (write_passes demo_strerror 1 1024 (xfer_start c 4096 demo_env)).

Definition avail_reply (s : @xfer dev) : snd_compr_avail * compress dev * env dev :=
  match call_ioctl (x_c s) SNDRV_COMPRESS_AVAIL (x_env s) with
  | Returns (_, av, c, e) => (av, c, e)
  | _ => ({| avail := 0; tstamp := demo_tstamp |}, x_c s, x_env s)
  end.


Definition at_once_state : @xfer dev :=
  Eval vm_compute in second_pass nonblocking_handle.

Definition at_once_reply : snd_compr_avail * compress dev * env dev :=
  Eval vm_compute in avail_reply at_once_state.






(** A device that reports protocol version [0], and one that reports
    version 0.1.0. *)
Definition version_zero_run : outcome (Z * compress dev * env dev) :=
  Eval vm_compute in
    compress_set_gapless_metadata demo_strerror
      (demo_handle (demo_ops 0 0 0) COMPRESS_IN) demo_mdata demo_env.

Definition old_version_read : outcome (Z * compress dev * env dev) :=
  Eval vm_compute in
    get_compress_version demo_strerror
      (demo_handle (demo_ops 256 0 0) COMPRESS_IN) demo_env.

(** The codec of the track that follows. *)
Definition next_codec : snd_codec := {| id := 1; codec_words := [2; 2; 44100] |}.

Definition hpointer_reply : snd_compr_avail * compress dev * env dev :=
  Eval vm_compute in
    (match call_ioctl (demo_handle (demo_ops 258 0 0) COMPRESS_IN)
             SNDRV_COMPRESS_AVAIL demo_env with
     | Returns (_, av, c, e) => (av, c, e)
     | _ => ({| avail := 0; tstamp := demo_tstamp |}, demo_handle dead_ops 0, demo_env)
     end).

Definition demo_world : world dev :=
  {| w_env := demo_env; bad_compress := bad_compress_init []; heap := ∅;
     heap_room := 4 |}.

Definition demo_open (card flags : Z) (cfg : option compr_config) :=
  compress_open demo_strerror demo_get_dev_node demo_get_node_type
    (demo_ops 258 0 0) dead_ops [] card 0 flags cfg demo_world.

Definition demo_probe (card : Z) (cd : snd_codec) :=
  is_codec_supported demo_strerror demo_get_dev_node demo_get_node_type
    (demo_ops 258 0 0) dead_ops card 0 COMPRESS_IN cd demo_world.


(** Opening card 0 for capture with a "don't care" configuration, and
    opening card 1, whose device cannot be opened. *)
Definition dont_care : compr_config :=
  {| fragment_size := 0; fragments := 0; codec := demo_codec |}.

Definition dont_care_open : handle_ptr * option compr_config * world dev :=
  Eval vm_compute in demo_open 0 COMPRESS_OUT (Some dont_care).

Definition dead_open : handle_ptr * option compr_config * world dev :=
  Eval vm_compute in demo_open 1 COMPRESS_OUT (Some demo_config).

(** What a probe came to. *)
Definition probe_of (o : outcome (bool * world dev)) : bool * world dev :=
  match o with
  | Returns x => x
  | _ => (false, demo_world)
  end.

(** Probing card 1. *)
Definition dead_probe : bool * world dev :=
  Eval vm_compute in probe_of (demo_probe 1 demo_codec).

(** A fresh handle paused before it was started, then started and
    stopped. *)
Definition lifecycle_run : list (api_call * Z) * compress dev * env dev :=
  Eval vm_compute in
    (let o := run_calls demo_strerror [api_pause; api_start; api_stop]
                (demo_handle (demo_ops 258 0 0) COMPRESS_IN) demo_env in
     (value_of [] o, handle_of o, env_of o)).


(** A wait on a device whose poll reports one writable descriptor. *)
Definition writable_handle : compress dev :=
  demo_handle (demo_ops 258 1 POLLOUT) COMPRESS_IN.

Definition wait_poll : compress dev * env dev :=
  Eval vm_compute in
    (match call_poll writable_handle (Z.lor POLLOUT POLLIN) 50 demo_env with
     | Returns (_, _, c, e) => (c, e)
     | _ => (demo_handle dead_ops 0, demo_env)
     end).

Definition wait_run : Z * compress dev * env dev :=
  Eval vm_compute in
    (let o := compress_wait demo_strerror writable_handle 50 demo_env in
     (value_of 1 o, handle_of o, env_of o)).

Definition gapless_run : Z * compress dev * env dev :=
  Eval vm_compute in
    (let o := compress_set_gapless_metadata demo_strerror
                (demo_handle (demo_ops 258 0 0) COMPRESS_IN) demo_mdata demo_env in
     (value_of 1 o, handle_of o, env_of o)).

(** A backend that always reports room for 4096 bytes. *)
Definition roomy_ioctl (T : Type) (d : dev) (r : ioctl_req T) : ioctl_res dev T :=
  match r in ioctl_req T0 return ioctl_res dev T0 with
  | SNDRV_COMPRESS_AVAIL => ok d {| avail := 4096; tstamp := demo_tstamp |}
  | r0 => demo_ioctl 258 _ d r0
  end.

Definition roomy_moved (n : Z) : Z := if 65536 <? n then 65536 else n.

Definition roomy_xfer (d : dev) (cbuf n : Z) : xfer_res dev :=
  {| xfer_ret := roomy_moved n; xfer_errno := None; xfer_data := d |}.

Definition roomy_ops : compress_ops dev :=
  {| ops_open := fun card device flags n =>
       {| open_fd := 3; open_errno := None; open_data := [] |};
     ops_close := fun _ => tt;
     ops_ioctl := roomy_ioctl;
     ops_read := roomy_xfer;
     ops_write := roomy_xfer;
     ops_poll := demo_poll 0 0 |}.

(** Opening with flags that name no direction, and probing card 0. *)
Definition no_direction_open : handle_ptr * option compr_config * world dev :=
  Eval vm_compute in demo_open 0 0 (Some demo_config).

Definition live_probe : bool * world dev :=
  Eval vm_compute in probe_of (demo_probe 0 demo_codec).

(** A device that reports 33 codecs, one more than [caps.codecs] holds,
    and a codec that is not among them. *)
Definition crowded_caps : snd_compr_caps :=
  {| num_codecs := 33; min_fragment_size := 1024; max_fragment_size := 65536;
     min_fragments := 2; max_fragments := 8; codecs := [1; 3] |}.

Definition crowded_ioctl (T : Type) (d : dev) (r : ioctl_req T) : ioctl_res dev T :=
  match r in ioctl_req T0 return ioctl_res dev T0 with
  | SNDRV_COMPRESS_GET_CAPS => ok d crowded_caps
  | r0 => demo_ioctl 258 _ d r0
  end.

Definition crowded_ops : compress_ops dev :=
  {| ops_open := fun card device flags n =>
       {| open_fd := 3; open_errno := None; open_data := [] |};
     ops_close := fun _ => tt;
     ops_ioctl := crowded_ioctl;
     ops_read := demo_xfer;
     ops_write := demo_xfer;
     ops_poll := demo_poll 0 0 |}.

Definition unlisted_codec : snd_codec := {| id := 7; codec_words := [2; 2; 48000] |}.

(** A blocking write of 4096 bytes with the poll wait set to 50 ms, on
    a device with room for 2048. *)
Definition timed_write : Z * compress dev * env dev :=
  Eval vm_compute in
    (let o := compress_write demo_strerror 2
                (compress_nonblock
                   (compress_set_max_poll_wait
                      (demo_handle (demo_ops 258 0 0) COMPRESS_IN) 50) 0)
                4096 demo_env in
     (value_of 0 o, handle_of o, env_of o)).

End Demo.

(** * Properties *)

(** ** Integers and tests *)

Lemma truthy_true (x : Z) : truthy x = true <-> x <> 0.
Proof.
  unfold truthy. rewrite negb_true_iff, Z.eqb_neq. tauto.
Qed.

Lemma truthy_false (x : Z) : truthy x = false <-> x = 0.
Proof.
  unfold truthy. rewrite negb_false_iff, Z.eqb_eq. tauto.
Qed.

Lemma is_compress_running_spec {D : Type} (c : compress D) :
  truthy (is_compress_running c) = true <-> 0 <= fd c /\ running c <> 0.
Proof.
  unfold is_compress_running.
  destruct (0 <=? fd c) eqn:Hfd; simpl.
  - apply Z.leb_le in Hfd. destruct (truthy (running c)) eqn:Hr.
    + apply truthy_true in Hr. split; [tauto | reflexivity].
    + apply truthy_false in Hr. split; [discriminate | intros [_ H]; congruence].
  - apply Z.leb_gt in Hfd. split; [discriminate | intros [H _]; lia].
Qed.

Lemma is_compress_ready_spec {D : Type} (c : compress D) :
  truthy (is_compress_ready c) = true <-> 0 <= fd c.
Proof.
  unfold is_compress_ready.
  destruct (0 <=? fd c) eqn:Hfd; simpl.
  - apply Z.leb_le in Hfd. tauto.
  - apply Z.leb_gt in Hfd. split; [discriminate | lia].
Qed.

Lemma running_is_ready {D : Type} (c : compress D) :
  truthy (is_compress_running c) = true -> truthy (is_compress_ready c) = true.
Proof.
  rewrite is_compress_running_spec, is_compress_ready_spec. tauto.
Qed.

(** ** What a call leaves of the handle *)

Lemma same_ctl_refl {D : Type} (c : compress D) : same_ctl c c.
Proof. repeat split. Qed.

Lemma same_ctl_trans {D : Type} (c1 c2 c3 : compress D) :
  same_ctl c1 c2 -> same_ctl c2 c3 -> same_ctl c1 c3.
Proof.
  unfold same_ctl. intros H12 H23.
  destruct H12 as (?&?&?&?&?&?&?&?&?&?), H23 as (?&?&?&?&?&?&?&?&?&?).
  repeat split; congruence.
Qed.

(** Unfolds the monadic plumbing and splits on every test of the code. *)
Ltac run_code :=
  repeat (unfold mbind, outcome_bind, pass_of, oops, call_ioctl, call_poll,
            call_write, call_read in *; simpl in *);
  repeat (case_match; simplify_eq; simpl in *; try discriminate);
  simplify_eq; simpl in *.

Section HandleFacts.

Context {D : Type}.
Variable strerror : Z -> string.

Lemma oops_ctl (c c' : compress D) (e : Z) (msg : string) (en en' : env D) r :
  oops strerror c e msg en = (r, c', en') ->
  r = -1 /\ same_ctl c c' /\ data c' = data c /\ errno en' = e /\
  trace en' = trace en /\ error c' = oops_text strerror e msg.
Proof.
  unfold oops. intros H. simplify_eq. simpl. repeat split.
Qed.

Lemma call_ioctl_ctl {T : Type} (c c' : compress D) (r : ioctl_req T) en rc out en' :
  call_ioctl c r en = Returns (rc, out, c', en') ->
  same_ctl c c' /\ error c' = error c /\ trace en' = trace en ++ [ev_ioctl r].
Proof.
  unfold call_ioctl. intros H. case_match; simplify_eq. simpl. repeat split.
Qed.

Lemma call_poll_ctl (c c' : compress D) events timeout en ret revents en' :
  call_poll c events timeout en = Returns (ret, revents, c', en') ->
  same_ctl c c' /\ error c' = error c /\
  trace en' = trace en ++ [ev_poll events timeout].
Proof.
  unfold call_poll. intros H. case_match; simplify_eq. simpl. repeat split.
Qed.

Lemma write_pass_ctl (frag : Z) (s : @xfer D) :
  match write_pass strerror frag s with
  | Next s' => same_ctl (x_c s) (x_c s')
  | Exit (_, c', _) => same_ctl (x_c s) c'
  | Crash => True
  end.
Proof.
  unfold write_pass, write_avail. run_code; repeat split.
Qed.

Lemma read_pass_ctl (frag : Z) (s : @xfer D) :
  match read_pass strerror frag s with
  | Next s' => same_ctl (x_c s) (x_c s')
  | Exit (_, c', _) => same_ctl (x_c s) c'
  | Crash => True
  end.
Proof.
  unfold read_pass, read_avail. run_code; repeat split.
Qed.

Lemma write_loop_ctl (fuel : nat) (frag : Z) (s : @xfer D) r c' en' :
  write_loop strerror fuel frag s = Returns (r, c', en') -> same_ctl (x_c s) c'.
Proof.
  revert s. induction fuel as [|fuel IH]; intros s; simpl.
  - destruct (x_size s =? 0); [|discriminate].
    intros H. simplify_eq. apply same_ctl_refl.
  - destruct (x_size s =? 0).
    + intros H. simplify_eq. apply same_ctl_refl.
    + pose proof (write_pass_ctl frag s) as Hp.
      destruct (write_pass strerror frag s) as [s'|[[r0 c0] e0]|]; intros H.
      * eapply same_ctl_trans; [exact Hp | eauto].
      * simplify_eq. exact Hp.
      * discriminate.
Qed.

Lemma read_loop_ctl (fuel : nat) (frag : Z) (s : @xfer D) r c' en' :
  read_loop strerror fuel frag s = Returns (r, c', en') -> same_ctl (x_c s) c'.
Proof.
  revert s. induction fuel as [|fuel IH]; intros s; simpl.
  - destruct (x_size s =? 0); [|discriminate].
    intros H. simplify_eq. apply same_ctl_refl.
  - destruct (x_size s =? 0).
    + intros H. simplify_eq. apply same_ctl_refl.
    + pose proof (read_pass_ctl frag s) as Hp.
      destruct (read_pass strerror frag s) as [s'|[[r0 c0] e0]|]; intros H.
      * eapply same_ctl_trans; [exact Hp | eauto].
      * simplify_eq. exact Hp.
      * discriminate.
Qed.

Lemma compress_write_ctl (fuel : nat) (c c' : compress D) size en r en' :
  compress_write strerror fuel c size en = Returns (r, c', en') -> same_ctl c c'.
Proof.
  unfold compress_write. intros H.
  destruct (config c); [|discriminate].
  destruct (negb (truthy (Z.land (flags c) COMPRESS_IN))).
  { unfold oops in H. simplify_eq. repeat split. }
  destruct (negb (truthy (is_compress_ready c))).
  { unfold oops in H. simplify_eq. repeat split. }
  apply write_loop_ctl in H. exact H.
Qed.

Lemma compress_read_ctl (fuel : nat) (c c' : compress D) size en r en' :
  compress_read strerror fuel c size en = Returns (r, c', en') -> same_ctl c c'.
Proof.
  unfold compress_read. intros H.
  destruct (config c); [|discriminate].
  destruct (negb (truthy (Z.land (flags c) COMPRESS_OUT))).
  { unfold oops in H. simplify_eq. repeat split. }
  destruct (negb (truthy (is_compress_ready c))).
  { unfold oops in H. simplify_eq. repeat split. }
  apply read_loop_ctl in H. exact H.
Qed.

(** The four latches after a call, from the call and what it returned. *)
Lemma run_call_latches (a : api_call) (c c' : compress D) en en' r :
  run_call strerror a c en = Returns (r, c', en') ->
  fd c' = fd c /\
  running c' = (if ok_start (a, r) then 1 else running c) /\
  gapless_metadata c' =
    (if ok_set_gapless_metadata (a, r) then 1
     else if ok_next_track (a, r) then 0 else gapless_metadata c) /\
  next_track c' =
    (if ok_next_track (a, r) then 1
     else if ok_partial_drain (a, r) || ok_set_codec_params (a, r) then 0
     else next_track c).
Proof.
  destruct a; simpl;
    unfold ok_start, ok_set_gapless_metadata, ok_next_track, ok_partial_drain,
      ok_set_codec_params; simpl; intros H.
  11: { apply compress_read_ctl in H. unfold same_ctl in H. tauto. }
  10: { apply compress_write_ctl in H. unfold same_ctl in H. tauto. }
  all: unfold compress_start, compress_stop, compress_pause, compress_resume,
         compress_drain, compress_partial_drain, compress_next_track,
         compress_set_gapless_metadata, get_compress_version,
         compress_set_codec_params, compress_get_hpointer, compress_get_tstamp,
         compress_wait, compress_set_max_poll_wait, compress_nonblock in H.
  all: run_code; repeat split.
Qed.

Lemma run_calls_keep_unarmed (l : list api_call) (c c' : compress D) en en' h :
  run_calls strerror l c en = Returns (h, c', en') ->
  existsb ok_set_gapless_metadata h = false ->
  truthy (is_compress_running c) = true -> gapless_metadata c = 0 ->
  truthy (is_compress_running c') = true /\ gapless_metadata c' = 0.
Proof.
  revert c en h. induction l as [|a l IH]; intros c en h; simpl.
  - intros H _ Hrun Hg. simplify_eq. tauto.
  - destruct (run_call strerror a c en) as [[[r c1] e1]| |] eqn:Ha;
      simpl; try discriminate.
    destruct (run_calls strerror l c1 e1) as [[[h1 c2] e2]| |] eqn:Hl;
      simpl; try discriminate.
    intros H Hno Hrun Hg. simplify_eq. simpl in Hno.
    apply orb_false_iff in Hno as [Hno1 Hno2].
    apply run_call_latches in Ha as (Hfd & Hr & Hgm & _).
    rewrite Hno1 in Hgm.
    apply (IH c1 e1 h1 Hl Hno2).
    + rewrite is_compress_running_spec in *. rewrite Hfd, Hr.
      destruct (ok_start (a, r)); [lia | tauto].
    + rewrite Hgm. destruct (ok_next_track (a, r)); [reflexivity | exact Hg].
Qed.

Lemma since_last_none {A : Type} (p : A -> bool) (h : list A) :
  existsb p h = false -> since_last p h = h.
Proof.
  induction h as [|x h IH]; simpl; [reflexivity|].
  intros H. apply orb_false_iff in H as [Hx Hh].
  rewrite Hh, Hx. reflexivity.
Qed.

(** A set next-track flag comes from a successful [next_track] that no
    successful [partial_drain] followed, or was set from the start. *)
Lemma run_calls_next_track_origin (l : list api_call) (c c' : compress D) en en' h :
  run_calls strerror l c en = Returns (h, c', en') ->
  next_track c' <> 0 ->
  next_track_since_drain h = true \/
  (next_track c <> 0 /\ existsb ok_partial_drain h = false).
Proof.
  revert c en h. induction l as [|a l IH]; intros c en h; simpl.
  - intros H Hnt. simplify_eq. right. split; [exact Hnt | reflexivity].
  - destruct (run_call strerror a c en) as [[[r c1] e1]| |] eqn:Ha;
      simpl; try discriminate.
    destruct (run_calls strerror l c1 e1) as [[[h1 c2] e2]| |] eqn:Hl;
      simpl; try discriminate.
    intros H Hnt. simplify_eq.
    apply run_call_latches in Ha as (_ & _ & _ & Hn).
    unfold next_track_since_drain. simpl.
    destruct (IH c1 e1 h1 Hl Hnt) as [Hs | [Hn1 Hno]].
    + left. unfold next_track_since_drain in Hs.
      destruct (existsb ok_partial_drain h1) eqn:Hpd; [exact Hs|].
      rewrite since_last_none in Hs by exact Hpd.
      destruct (ok_partial_drain (a, r)); [exact Hs|].
      simpl. rewrite Hs. apply orb_true_r.
    + rewrite Hno.
      destruct (ok_next_track (a, r)) eqn:Hnx.
      * left.
        assert (Hpd : ok_partial_drain (a, r) = false).
        { unfold ok_next_track, ok_partial_drain in *. simpl in *.
          destruct a; try discriminate; reflexivity. }
        rewrite Hpd. simpl. rewrite Hnx. reflexivity.
      * destruct (ok_partial_drain (a, r)) eqn:Hpd; simpl in Hn.
        { congruence. }
        destruct (ok_set_codec_params (a, r)); simpl in Hn; [congruence|].
        right. split; [congruence | reflexivity].
Qed.

Lemma run_call_keeps_running (a : api_call) (c c' : compress D) en en' r :
  run_call strerror a c en = Returns (r, c', en') ->
  truthy (is_compress_running c) = true ->
  truthy (is_compress_running c') = true.
Proof.
  intros H Hrun. apply run_call_latches in H as (Hfd & Hr & _).
  rewrite is_compress_running_spec in *. rewrite Hfd, Hr.
  destruct (ok_start (a, r)); [lia | tauto].
Qed.

Lemma next_track_success_running (c c' : compress D) en en' :
  compress_next_track strerror c en = Returns (0, c', en') ->
  truthy (is_compress_running c) = true.
Proof.
  unfold compress_next_track. intros H.
  destruct (truthy (is_compress_running c)); [reflexivity|].
  unfold oops in H. simplify_eq.
Qed.

(** A handle whose next-track flag was clear and is now set is running. *)
Lemma run_calls_next_track_running (l : list api_call) (c c' : compress D) en en' h :
  run_calls strerror l c en = Returns (h, c', en') ->
  (next_track c <> 0 -> truthy (is_compress_running c) = true) ->
  next_track c' <> 0 -> truthy (is_compress_running c') = true.
Proof.
  revert c en h. induction l as [|a l IH]; intros c en h; simpl.
  - intros H Hinv. simplify_eq. exact Hinv.
  - destruct (run_call strerror a c en) as [[[r c1] e1]| |] eqn:Ha;
      simpl; try discriminate.
    destruct (run_calls strerror l c1 e1) as [[[h1 c2] e2]| |] eqn:Hl;
      simpl; try discriminate.
    intros H Hinv. simplify_eq.
    apply (IH c1 e1 h1 Hl).
    intros Hn1.
    pose proof (run_call_keeps_running _ _ _ _ _ _ Ha) as Hkeep.
    pose proof (run_call_latches _ _ _ _ _ _ Ha) as (_ & _ & _ & Hn).
    destruct (ok_next_track (a, r)) eqn:Hnx.
    + apply Hkeep. unfold ok_next_track in Hnx. simpl in Hnx.
      destruct a; try discriminate. apply Z.eqb_eq in Hnx. subst r.
      simpl in Ha. eapply next_track_success_running. exact Ha.
    + destruct (ok_partial_drain (a, r) || ok_set_codec_params (a, r));
        [congruence|].
      apply Hkeep, Hinv. congruence.
Qed.

End HandleFacts.

(** ** The transfer loops *)

Lemma s32_small z : 0 <= z <= INT_MAX -> s32 z = z.
Proof. unfold s32, INT_MAX. intros. Z.to_euclidean_division_equations. lia. Qed.

Lemma s32_big z : INT_MAX < z <= UINT_MAX -> s32 z = z - 4294967296.
Proof. unfold s32, INT_MAX, UINT_MAX. intros. Z.to_euclidean_division_equations. lia. Qed.

Lemma u32_small z : 0 <= z <= UINT_MAX -> u32 z = z.
Proof. unfold u32, UINT_MAX. intros. Z.to_euclidean_division_equations. lia. Qed.

(** A backend that honours its contract never moves more than remains. *)
Lemma transfer_within_size (size av w : Z) :
  0 < size <= UINT_MAX -> 0 <= av ->
  INT_MIN <= w <= INT_MAX -> (0 <= transfer_count size av -> w <= transfer_count size av) ->
  w <= size.
Proof.
  unfold transfer_count. intros Hs Hav Hw Hc.
  destruct (size >? av) eqn:Hcmp.
  - apply Z.gtb_lt in Hcmp.
    destruct (Z_le_gt_dec av INT_MAX) as [Hle|Hgt].
    + rewrite s32_small in Hc by lia. lia.
    + unfold INT_MAX in *. lia.
  - rewrite Z.gtb_ltb, Z.ltb_ge in Hcmp.
    destruct (Z_le_gt_dec size INT_MAX) as [Hle|Hgt].
    + rewrite s32_small in Hc by lia. lia.
    + unfold INT_MAX in *. lia.
Qed.

(** Closes the arithmetic side of a pass that moved some bytes. *)
Ltac transfer_arith :=
  match goal with
  | Hc : transfer_contract ?o, Hsz : 0 < x_size ?s <= UINT_MAX
    |- context [xfer_ret (?f ?o ?d ?b ?n)] =>
      let Hw := fresh "Hw" in
      let Hav := fresh "Hav" in
      pose proof (Hc d b n) as Hw;
      pose proof (Hc (data (x_c s)) 0 0) as Hav;
      destruct Hw as (Hw1 & Hw2 & Hw3 & Hw4 & _);
      destruct Hav as (_ & _ & _ & _ & Hav);
      assert (xfer_ret (f o d b n) <= x_size s)
        by (eapply (transfer_within_size (x_size s)
                      (avail (io_out (ops_ioctl o (data (x_c s)) SNDRV_COMPRESS_AVAIL))));
            [exact Hsz | exact Hav | assumption
            | unfold transfer_count;
              repeat match goal with H : (_ >? _) = _ |- _ => rewrite H end;
              assumption]);
      rewrite u32_small;
      repeat match goal with
             | H : (_ <? _) = false |- _ => apply Z.ltb_ge in H
             end; unfold UINT_MAX, INT_MAX in *; lia
  end.

Section Transfer.

Context {D : Type}.
Variable strerror : Z -> string.

(** *** Writing *)

Lemma write_pass_next (frag : Z) (s s' : @xfer D) :
  write_pass strerror frag s = Next s' ->
  same_ctl (x_c s) (x_c s') /\ error (x_c s') = error (x_c s) /\
  (0 <= x_total s -> 0 <= x_total s') /\
  (forall o, ops (x_c s) = Some o -> transfer_contract o ->
     0 < x_size s <= UINT_MAX ->
     x_total s' + x_size s' = x_total s + x_size s /\ 0 <= x_size s' <= UINT_MAX) /\
  (truthy (nonblocking (x_c s)) = true ->
   exists evs, trace (x_env s') = trace (x_env s) ++ evs /\ existsb is_poll evs = false).
Proof.
  unfold write_pass, write_avail. intros H.
  run_code.
  all: split; [repeat split|]; split; [reflexivity|].
  all: split; [intros; try lia|].
  all: split; [intros o Ho Hc Hsz; simplify_eq; try lia
              | intros Hnb; try congruence].
  all: try (eexists; split; [rewrite <- app_assoc; reflexivity | reflexivity]).
  all: transfer_arith.
Qed.



Lemma compress_write_enters (fuel : nat) (c : compress D) cfg size en :
  config c = Some cfg ->
  truthy (Z.land (flags c) COMPRESS_IN) = true ->
  truthy (is_compress_ready c) = true ->
  compress_write strerror fuel c size en
  = write_loop strerror fuel (fragment_size cfg) (xfer_start c size en).
Proof.
  intros Hcfg Hfl Hrd. unfold compress_write. rewrite Hcfg, Hfl, Hrd. reflexivity.
Qed.






(** *** Reading *)

Lemma read_pass_next (frag : Z) (s s' : @xfer D) :
  read_pass strerror frag s = Next s' ->
  same_ctl (x_c s) (x_c s') /\ error (x_c s') = error (x_c s) /\
  (0 <= x_total s -> 0 <= x_total s') /\
  (forall o, ops (x_c s) = Some o -> transfer_contract o ->
     0 < x_size s <= UINT_MAX ->
     x_total s' + x_size s' = x_total s + x_size s /\ 0 <= x_size s' <= UINT_MAX) /\
  (truthy (nonblocking (x_c s)) = true ->
   exists evs, trace (x_env s') = trace (x_env s) ++ evs /\ existsb is_poll evs = false).
Proof.
  unfold read_pass, read_avail. intros H.
  run_code.
  all: split; [repeat split|]; split; [reflexivity|].
  all: split; [intros; try lia|].
  all: split; [intros o Ho Hc Hsz; simplify_eq; try lia
              | intros Hnb; try congruence].
  all: try (eexists; split; [rewrite <- app_assoc; reflexivity | reflexivity]).
  all: transfer_arith.
Qed.



Lemma compress_read_enters (fuel : nat) (c : compress D) cfg size en :
  config c = Some cfg ->
  truthy (Z.land (flags c) COMPRESS_OUT) = true ->
  truthy (is_compress_ready c) = true ->
  compress_read strerror fuel c size en
  = read_loop strerror fuel (fragment_size cfg) (xfer_start c size en).
Proof.
  intros Hcfg Hfl Hrd. unfold compress_read. rewrite Hcfg, Hfl, Hrd. reflexivity.
Qed.






(** *** The two claims about the loops *)



End Transfer.

(** ** The gapless latches *)

Section Gapless.

Context {D : Type}.
Variable strerror : Z -> string.

(** C1.  [compress_next_track] succeeds only on a running handle whose
    gapless-metadata flag is set; a success sets the next-track flag and
    clears the gapless-metadata flag; and after a success, whatever calls
    follow, as long as none of them is a successful
    [compress_set_gapless_metadata], a second [compress_next_track] issues no
    control request and fails with [EPERM], "metadata not set". *)
Theorem next_track_is_one_shot (c c1 : compress D) (en e1 : env D) :
  compress_next_track strerror c en = Returns (0, c1, e1) ->
  (truthy (is_compress_running c) = true /\ gapless_metadata c <> 0) /\
  (next_track c1 = 1 /\ gapless_metadata c1 = 0) /\
  (forall l h c2 e2,
     run_calls strerror l c1 e1 = Returns (h, c2, e2) ->
     existsb ok_set_gapless_metadata h = false ->
     compress_next_track strerror c2 e2 =
       Returns (-1, set_error c2 (oops_text strerror EPERM "metadata not set"),
                set_errno e2 EPERM)).
Proof.
  intros H.
  assert (Hpre : truthy (is_compress_running c) = true /\ gapless_metadata c <> 0).
  { unfold compress_next_track in H.
    destruct (truthy (is_compress_running c)); simpl in H;
      [|unfold oops in H; simplify_eq].
    destruct (truthy (gapless_metadata c)) eqn:Hg; simpl in H;
      [|unfold oops in H; simplify_eq].
    apply truthy_true in Hg. tauto. }
  assert (Hpost : truthy (is_compress_running c1) = true /\
                  next_track c1 = 1 /\ gapless_metadata c1 = 0).
  { destruct Hpre as [Hrun Hg]. apply truthy_true in Hg.
    unfold compress_next_track in H. rewrite Hrun, Hg in H. simpl in H.
    rewrite is_compress_running_spec in *.
    run_code. tauto. }
  split; [exact Hpre|]. split; [tauto|].
  intros l h c2 e2 Hl Hno.
  destruct Hpost as (Hrun1 & _ & Hg1).
  destruct (run_calls_keep_unarmed strerror l c1 c2 e1 e2 h Hl Hno Hrun1 Hg1)
    as [Hrun2 Hg2].
  unfold compress_next_track. rewrite Hrun2, Hg2. reflexivity.
Qed.

(** C2.  [compress_partial_drain] fails, without issuing a control
    request, unless the handle is running and its next-track flag is set;
    when it returns [0] it has issued the partial-drain request and cleared
    the flag; and on a handle that started with the flag clear, it can only
    return [0] if, in the calls made since, a [next_track] succeeded after the
    last successful [partial_drain]. *)
Theorem partial_drain_needs_next_track (c : compress D) (en : env D) :
  (truthy (is_compress_running c) = false ->
   compress_partial_drain strerror c en
   = Returns (oops strerror c ENODEV "device not ready" en)) /\
  (truthy (is_compress_running c) = true -> next_track c = 0 ->
   compress_partial_drain strerror c en
   = Returns (oops strerror c EPERM "next track not signalled" en)) /\
  (forall c' en',
     compress_partial_drain strerror c en = Returns (0, c', en') ->
     truthy (is_compress_running c) = true /\ next_track c <> 0 /\
     next_track c' = 0 /\
     trace en' = trace en ++ [ev_ioctl SNDRV_COMPRESS_PARTIAL_DRAIN] /\
     forall l c0 e0 h,
       next_track c0 = 0 ->
       run_calls strerror l c0 e0 = Returns (h, c, en) ->
       next_track_since_drain h = true).
Proof.
  split; [|split].
  - intros Hrun. unfold compress_partial_drain. rewrite Hrun. reflexivity.
  - intros Hrun Hnt. unfold compress_partial_drain. rewrite Hrun, Hnt. reflexivity.
  - intros c' en' H.
    assert (Hpre : truthy (is_compress_running c) = true /\ next_track c <> 0).
    { unfold compress_partial_drain in H.
      destruct (truthy (is_compress_running c)); simpl in H;
        [|unfold oops in H; simplify_eq].
      destruct (truthy (next_track c)) eqn:Hn; simpl in H;
        [|unfold oops in H; simplify_eq].
      apply truthy_true in Hn. tauto. }
    destruct Hpre as [Hrun Hnt].
    split; [exact Hrun|]. split; [exact Hnt|].
    assert (Hn : truthy (next_track c) = true) by (apply truthy_true; exact Hnt).
    unfold compress_partial_drain in H. rewrite Hrun, Hn in H. simpl in H.
    run_code. split; [reflexivity|]. split; [reflexivity|].
    intros l c0 e0 h Hc0 Hl.
    destruct (run_calls_next_track_origin strerror l c0 c e0 en h Hl Hnt)
      as [Hs | [Hbad _]]; [exact Hs | congruence].
Qed.

(** C5, as the code has it.  [compress_set_gapless_metadata]
    - fails with [ENODEV] on a handle that is not device-ready;
    - returns [-1] without recording an error of its own when the version
      read is zero or negative;
    - fails with [ENXIO], "gapless apis not supported in kernel", when the
      version read is positive and below [SNDRV_PROTOCOL_VERSION(0, 1, 1)];
    - leaves the gapless-metadata flag as it was whenever it does not
      return [0];
    - returns [0] only after the padding push and then the delay push both
      returned zero, and then sets the flag. *)
Theorem set_gapless_metadata_arms_on_full_success
  (c : compress D) (mdata : compr_gapless_mdata) (en : env D) :
  (truthy (is_compress_ready c) = false ->
   compress_set_gapless_metadata strerror c mdata en
   = Returns (-1, set_error c (oops_text strerror ENODEV "device not ready"),
              set_errno en ENODEV)) /\
  (forall version c1 e1,
     truthy (is_compress_ready c) = true ->
     get_compress_version strerror c en = Returns (version, c1, e1) ->
     (version <= 0 ->
      compress_set_gapless_metadata strerror c mdata en = Returns (-1, c1, e1)) /\
     (0 < version < SNDRV_PROTOCOL_VERSION 0 1 1 ->
      compress_set_gapless_metadata strerror c mdata en
      = Returns (-1,
                 set_error c1
                   (oops_text strerror ENXIO "gapless apis not supported in kernel"),
                 set_errno e1 ENXIO))) /\
  (forall r c' en',
     compress_set_gapless_metadata strerror c mdata en = Returns (r, c', en') ->
     (r <> 0 -> r = -1 /\ gapless_metadata c' = gapless_metadata c) /\
     (r = 0 ->
      gapless_metadata c' = 1 /\
      exists version c1 e1 c2 e2 c3,
        get_compress_version strerror c en = Returns (version, c1, e1) /\
        SNDRV_PROTOCOL_VERSION 0 1 1 <= version /\
        call_ioctl c1
          (SNDRV_COMPRESS_SET_METADATA
             {| key := SNDRV_COMPRESS_ENCODER_PADDING;
                value0 := encoder_padding mdata |}) e1
        = Returns (0, tt, c2, e2) /\
        call_ioctl c2
          (SNDRV_COMPRESS_SET_METADATA
             {| key := SNDRV_COMPRESS_ENCODER_DELAY;
                value0 := encoder_delay mdata |}) e2
        = Returns (0, tt, c3, en') /\
        c' = set_gapless_metadata c3 1)).
Proof.
  split; [|split].
  - intros Hrd. unfold compress_set_gapless_metadata. rewrite Hrd. reflexivity.
  - intros version c1 e1 Hrd Hv. unfold compress_set_gapless_metadata.
    rewrite Hrd, Hv. simpl. split.
    + intros Hle. apply Z.leb_le in Hle. rewrite Hle. reflexivity.
    + intros [Hpos Hlt]. apply Z.ltb_lt in Hlt.
      assert (Hle : (version <=? 0) = false) by (apply Z.leb_gt; exact Hpos).
      rewrite Hle, Hlt. reflexivity.
  - intros r c' en' H. unfold compress_set_gapless_metadata in H.
    destruct (truthy (is_compress_ready c)); simpl in H.
    2: { unfold oops in H. simplify_eq. split; [tauto | lia]. }
    destruct (get_compress_version strerror c en) as [[[version c1] e1]| |] eqn:Hv;
      simpl in H; try discriminate.
    destruct (version <=? 0) eqn:Hle.
    { simplify_eq. split; [|lia]. intros _. split; [reflexivity|].
      unfold get_compress_version in Hv. run_code; reflexivity. }
    destruct (version <? SNDRV_PROTOCOL_VERSION 0 1 1) eqn:Hlt.
    { unfold oops in H. simplify_eq. split; [|lia]. intros _. split; [reflexivity|].
      unfold get_compress_version in Hv. run_code; reflexivity. }
    assert (Hg1 : gapless_metadata c1 = gapless_metadata c).
    { unfold get_compress_version in Hv. run_code; reflexivity. }
    match type of H with
    | context [call_ioctl c1 ?rq e1] =>
        destruct (call_ioctl c1 rq e1) as [[[[rc2 u2] c2] e2]| |] eqn:Hp;
          simpl in H; try discriminate
    end.
    pose proof (call_ioctl_ctl _ _ _ _ _ _ _ Hp) as (Hctl2 & _).
    destruct (truthy rc2) eqn:Hrc2.
    { unfold oops in H. simplify_eq. split; [|lia]. intros _. split; [reflexivity|].
      simpl. unfold same_ctl in Hctl2. destruct Hctl2 as (?&?&?&?&?&?&?&?&?&?).
      congruence. }
    match type of H with
    | context [call_ioctl c2 ?rq e2] =>
        destruct (call_ioctl c2 rq e2) as [[[[rc3 u3] c3] e3]| |] eqn:Hq;
          simpl in H; try discriminate
    end.
    pose proof (call_ioctl_ctl _ _ _ _ _ _ _ Hq) as (Hctl3 & _).
    destruct (truthy rc3) eqn:Hrc3.
    { unfold oops in H. simplify_eq. split; [|lia]. intros _. split; [reflexivity|].
      simpl. unfold same_ctl in Hctl2, Hctl3.
      destruct Hctl2 as (?&?&?&?&?&?&?&?&?&?), Hctl3 as (?&?&?&?&?&?&?&?&?&?).
      congruence. }
    simplify_eq. split; [intros Hne; congruence|]. intros _.
    split; [reflexivity|].
    apply truthy_false in Hrc2, Hrc3. subst rc2 rc3. destruct u2, u3.
    exists version, c1, e1, c2, e2, c3.
    apply Z.ltb_ge in Hlt. repeat split; try assumption; reflexivity.
Qed.

(** What [compress_set_codec_params] comes to on any handle: the refusal
    of its guard, or the copy of line 637, which no run survives; it never
    returns [0], and it never reaches the device. *)
Lemma set_codec_params_outcome
  (c : compress D) (codec_arg : option snd_codec) (en : env D) :
  compress_set_codec_params strerror c codec_arg en
  = if negb (truthy (is_compress_ready c)) || negb (truthy (next_track c))
    then Returns (-1, set_error c (oops_text strerror ENODEV "device not ready"),
                  set_errno en ENODEV)
    else Fault.
Proof.
  unfold compress_set_codec_params, store_codec.
  destruct (negb (truthy (is_compress_ready c)) || negb (truthy (next_track c)));
    [reflexivity|].
  destruct (config c); [|reflexivity].
  destruct codec_arg; reflexivity.
Qed.

(** A handle driven through the calls of the library from a state with
    the next-track flag clear is running whenever the flag is set. *)
Lemma next_track_flag_means_running
  (l : list api_call) (c0 c : compress D) (e0 en : env D) h :
  next_track c0 = 0 ->
  run_calls strerror l c0 e0 = Returns (h, c, en) ->
  next_track c <> 0 -> truthy (is_compress_running c) = true.
Proof.
  intros Hc0 Hl Hnt.
  eapply run_calls_next_track_running; [exact Hl | congruence | exact Hnt].
Qed.

End Gapless.

(** ** The hardware pointer *)

Lemma u64_small (z : Z) : 0 <= z < 18446744073709551616 -> u64 z = z.
Proof. intros H. unfold u64. apply Z.mod_small. exact H. Qed.

Section Queries.

Context {D : Type}.
Variable strerror : Z -> string.

(** C8.  [compress_get_hpointer] fails with [ENODEV] on a handle that is
    not device-ready, with the query's error when the availability query
    fails, and with [ENODATA] when the device reports a sampling rate of
    zero; otherwise, for the frame count [f] and the rate [r] the device
    reports (both [__u32], [r] not zero), it returns [0] with
    [tv_sec = f / r] and [tv_nsec = (f mod r) * 1000000000 / r], no
    intermediate value wrapping. *)
Theorem hw_pointer_timestamp (c : compress D) (en : env D) :
  (truthy (is_compress_ready c) = false ->
   compress_get_hpointer strerror c en
   = Returns (-1, None, set_error c (oops_text strerror ENODEV "device not ready"),
              set_errno en ENODEV)) /\
  (forall rc kavail c1 e1,
     truthy (is_compress_ready c) = true ->
     call_ioctl c SNDRV_COMPRESS_AVAIL en = Returns (rc, kavail, c1, e1) ->
     (rc <> 0 ->
      compress_get_hpointer strerror c en
      = Returns (-1, None,
                 set_error c1 (oops_text strerror (errno e1) "cannot get avail"),
                 set_errno e1 (errno e1))) /\
     (rc = 0 -> sampling_rate (tstamp kavail) = 0 ->
      compress_get_hpointer strerror c en
      = Returns (-1, None,
                 set_error c1 (oops_text strerror ENODATA "sample rate unknown"),
                 set_errno e1 ENODATA)) /\
     (rc = 0 ->
      0 <= pcm_io_frames (tstamp kavail) <= UINT_MAX ->
      0 < sampling_rate (tstamp kavail) <= UINT_MAX ->
      compress_get_hpointer strerror c en
      = Returns (0,
                 Some (u32 (avail kavail),
                       {| tv_sec := pcm_io_frames (tstamp kavail)
                                    / sampling_rate (tstamp kavail);
                          tv_nsec := (pcm_io_frames (tstamp kavail)
                                      mod sampling_rate (tstamp kavail))
                                     * 1000000000
                                     / sampling_rate (tstamp kavail) |}),
                 c1, e1))).
Proof.
  split.
  - intros Hrd. unfold compress_get_hpointer. rewrite Hrd. reflexivity.
  - intros rc kavail c1 e1 Hrd Hio. unfold compress_get_hpointer.
    rewrite Hrd, Hio. unfold mbind, outcome_bind. cbn [negb].
    split; [|split].
    + intros Hrc. apply truthy_true in Hrc. rewrite Hrc. reflexivity.
    + intros Hrc Hrate. subst rc. rewrite Hrate. reflexivity.
    + intros Hrc Hf Hr. subst rc.
      replace (truthy 0) with false by reflexivity.
      set (f := pcm_io_frames (tstamp kavail)) in *.
      set (r := sampling_rate (tstamp kavail)) in *.
      assert (Hne : (0 =? r) = false) by (apply Z.eqb_neq; lia).
      rewrite Hne.
      assert (Hq : 0 <= f / r <= f).
      { split; [apply Z.div_pos; lia|]. apply Z.div_le_upper_bound; nia. }
      assert (Hm : 0 <= f mod r < r) by (apply Z.mod_pos_bound; lia).
      unfold UINT_MAX in *.
      rewrite (u64_small (f / r)) by lia.
      rewrite (u64_small (f mod r)) by lia.
      rewrite (u64_small (f mod r * 1000000000)) by nia.
      reflexivity.
Qed.

End Queries.

(** ** Opening, closing and probing *)

Section Opening.

Context {D : Type}.
Variable strerror : Z -> string.
Variable snd_utils_get_dev_node : Z -> Z -> Z -> node.
Variable snd_utils_get_node_type : node -> Z.
Variable compr_hw_ops : compress_ops D.
Variable compr_plug_ops : compress_ops D.
Variable null_data : D.

Lemma calloc_keeps (w w1 : world D) :
  calloc w = Some w1 ->
  heap w1 = heap w /\ bad_compress w1 = bad_compress w /\
  S (heap_room w1) = heap_room w.
Proof.
  unfold calloc. destruct (heap_room w) eqn:Hr; [discriminate|].
  intros H. simplify_eq. simpl. repeat split.
Qed.

Lemma fresh_is_free (m : gmap nat (compress D)) : m !! fresh (dom m) = None.
Proof. apply not_elem_of_dom, is_fresh. Qed.

(** C7.  When [compress_open] returns a live handle, the handle is a new
    block; the caller's configuration and the handle's copy are the
    negotiated one; if the requested fragment size or fragment count was
    zero, the negotiated values are the minimum fragment size and the
    maximum fragment count the device reported; and the handle is not
    running, waits at most 20000 ms in a poll, and has both gapless flags
    clear. *)
Theorem open_negotiates_defaults
  (card device flags : Z) (config_arg cfg' : option compr_config)
  (w w' : world D) (a : nat) :
  compress_open strerror snd_utils_get_dev_node snd_utils_get_node_type
    compr_hw_ops compr_plug_ops null_data card device flags config_arg w
  = (live_ptr a, cfg', w') ->
  exists cfg ncfg c,
    config_arg = Some cfg /\ cfg' = Some ncfg /\
    heap w !! a = None /\ heap w' !! a = Some c /\ config c = Some ncfg /\
    (fragment_size cfg = 0 \/ fragments cfg = 0 ->
     fragment_size ncfg
     = min_fragment_size
         (open_caps snd_utils_get_dev_node snd_utils_get_node_type compr_hw_ops
            compr_plug_ops card device flags) /\
     fragments ncfg
     = max_fragments
         (open_caps snd_utils_get_dev_node snd_utils_get_node_type compr_hw_ops
            compr_plug_ops card device flags)) /\
    running c = 0 /\ max_poll_wait_ms c = 20000 /\
    gapless_metadata c = 0 /\ next_track c = 0.
Proof.
  unfold compress_open. intros H.
  destruct config_arg as [cfg|]; [|discriminate].
  destruct (calloc w) as [w1|] eqn:H1; [|discriminate].
  destruct (calloc w1) as [w2|] eqn:H2; [|discriminate].
  apply calloc_keeps in H1 as (Hh1 & _), H2 as (Hh2 & _).
  repeat (case_match; try discriminate).
  simplify_eq. simpl.
  eexists cfg, _, _. split; [reflexivity|]. split; [reflexivity|].
  split; [rewrite <- Hh1, <- Hh2; apply fresh_is_free|].
  split; [apply lookup_insert_eq|]. simpl.
  split; [reflexivity|]. split; [|repeat split].
  intros Hz. unfold fill_defaults.
  assert (Hb : (fragment_size cfg =? 0) || (fragments cfg =? 0) = true).
  { destruct Hz as [Hz|Hz]; rewrite Hz; [reflexivity | apply orb_true_r]. }
  rewrite Hb. simpl. split; reflexivity.
Qed.

(** Every failed open gives back what it took from the allocator. *)
Lemma failed_open_keeps_heap
  (card device flags : Z) (config_arg cfg' : option compr_config) (w w' : world D) :
  compress_open strerror snd_utils_get_dev_node snd_utils_get_node_type
    compr_hw_ops compr_plug_ops null_data card device flags config_arg w
  = (bad_ptr, cfg', w') ->
  heap w' = heap w /\ heap_room w' = heap_room w.
Proof.
  unfold compress_open. intros H.
  destruct config_arg as [cfg|].
  2: { simplify_eq. split; reflexivity. }
  destruct (calloc w) as [w1|] eqn:H1.
  2: { simplify_eq. split; reflexivity. }
  apply calloc_keeps in H1 as (Hh1 & _ & Hr1).
  destruct (calloc w1) as [w2|] eqn:H2.
  2: { simplify_eq. simpl. split; congruence. }
  apply calloc_keeps in H2 as (Hh2 & _ & Hr2).
  repeat (case_match; try discriminate); simplify_eq; simpl;
    split; congruence.
Qed.

(** C9.  [compress_close] on the sentinel returns with the process state
    exactly as it was: nothing is added to the trace (no node released, no
    connection closed), no block is freed, nothing changes; so does any
    number of such calls; and after an open that failed, which has already
    given back every block it took, they leave the state as the open left
    it. *)
Theorem close_of_sentinel_is_noop :
  (forall w : world D, compress_close bad_ptr w = Returns w) /\
  (forall (n : nat) (w : world D), close_times n bad_ptr w = Returns w) /\
  (forall card device flags config_arg cfg' (w w' : world D),
     compress_open strerror snd_utils_get_dev_node snd_utils_get_node_type
       compr_hw_ops compr_plug_ops null_data card device flags config_arg w
     = (bad_ptr, cfg', w') ->
     heap w' = heap w /\ heap_room w' = heap_room w /\
     forall n, close_times n bad_ptr w' = Returns w').
Proof.
  assert (Hn : forall (n : nat) (w : world D), close_times n bad_ptr w = Returns w).
  { induction n as [|n IH]; intros w; simpl; [reflexivity | apply IH]. }
  split; [reflexivity|]. split; [exact Hn|].
  intros card device flags config_arg cfg' w w' Hop.
  destruct (failed_open_keeps_heap _ _ _ _ _ _ _ Hop) as [Hh Hr].
  repeat split; try assumption. intros n. apply Hn.
Qed.

(** What the probe does once the device is open: it queries the
    capabilities and scans them; if the scan returns, it releases the node
    and closes the connection, and answers what the scan found; if the scan
    runs off the array, so does the probe. *)
Lemma probe_releases_after_open (card device flags : Z) (cd : snd_codec) (w : world D) :
  let n := snd_utils_get_dev_node card device NODE_COMPRESS in
  let o := select_ops snd_utils_get_node_type compr_hw_ops compr_plug_ops n in
  let r := ops_open o card device flags 0 in
  let q := ops_ioctl o (open_data r) SNDRV_COMPRESS_GET_CAPS in
  0 <= open_fd r ->
  match is_codec_supported strerror snd_utils_get_dev_node snd_utils_get_node_type
          compr_hw_ops compr_plug_ops card device flags cd w with
  | Returns (b, w') =>
      (if truthy (io_ret q) then b = false
       else codec_listed (io_out q) cd = Returns b) /\
      trace (w_env w')
      = trace (w_env w)
        ++ [ev_get_dev_node card device NODE_COMPRESS n;
            ev_open card device flags 0 (open_fd r);
            ev_ioctl SNDRV_COMPRESS_GET_CAPS; ev_put_dev_node n;
            ev_close (io_data q)] /\
      heap w' = heap w /\ heap_room w' = heap_room w
  | Fault => truthy (io_ret q) = false /\ codec_listed (io_out q) cd = Fault
  | OutOfFuel => truthy (io_ret q) = false /\ codec_listed (io_out q) cd = OutOfFuel
  end.
Proof.
  intros n o r q Hfd. unfold is_codec_supported.
  fold n. fold o. fold r.
  assert (Hlt : (open_fd r <? 0) = false) by (apply Z.ltb_ge; exact Hfd).
  rewrite Hlt. unfold _is_codec_type_supported. fold q.
  destruct (truthy (io_ret q)); simpl.
  - split; [reflexivity|]. split; [|split; reflexivity].
    repeat rewrite <- app_assoc. reflexivity.
  - destruct (codec_listed (io_out q) cd) as [b| |]; simpl.
    + split; [reflexivity|]. split; [|split; reflexivity].
      repeat rewrite <- app_assoc. reflexivity.
    + split; reflexivity.
    + split; reflexivity.
Qed.

(** What the probe does when the device cannot be opened: it returns
    [false] at once; the node it resolved is not released. *)
Lemma probe_open_failure (card device flags : Z) (cd : snd_codec) (w : world D) :
  let n := snd_utils_get_dev_node card device NODE_COMPRESS in
  let o := select_ops snd_utils_get_node_type compr_hw_ops compr_plug_ops n in
  let r := ops_open o card device flags 0 in
  open_fd r < 0 ->
  exists w',
    is_codec_supported strerror snd_utils_get_dev_node snd_utils_get_node_type
      compr_hw_ops compr_plug_ops card device flags cd w
    = Returns (false, w') /\
    trace (w_env w')
    = trace (w_env w)
      ++ [ev_get_dev_node card device NODE_COMPRESS n;
          ev_open card device flags 0 (open_fd r)].
Proof.
  intros n o r Hfd. unfold is_codec_supported.
  fold n. fold o. fold r.
  apply Z.ltb_lt in Hfd. rewrite Hfd. simpl.
  eexists. split; [reflexivity|]. simpl.
  rewrite <- app_assoc. reflexivity.
Qed.

End Opening.

(** The array has [MAX_NUM_CODECS] entries, whatever the list. *)
Lemma codecs_array_length (caps : snd_compr_caps) :
  length (codecs_array caps) = MAX_NUM_CODECS.
Proof.
  unfold codecs_array. rewrite length_firstn, length_app, repeat_length. lia.
Qed.

(** The scan answers [true] exactly when the id is among the first [left]
    entries it is given. *)
Lemma codec_scan_true (left : nat) (arr : list Z) (codec_id : Z) :
  codec_scan left arr codec_id = Returns true <-> In codec_id (firstn left arr).
Proof.
  revert arr. induction left as [|left IH]; intros arr; simpl.
  - split; [discriminate | tauto].
  - destruct arr as [|x arr]; simpl.
    + split; [discriminate | tauto].
    + destruct (x =? codec_id) eqn:Hx.
      * apply Z.eqb_eq in Hx. split; [intros _; left; exact Hx | reflexivity].
      * apply Z.eqb_neq in Hx. rewrite IH. tauto.
Qed.

(** It answers [false] exactly when it stays within the entries it is
    given and the id is not among those it looks at. *)
Lemma codec_scan_false (left : nat) (arr : list Z) (codec_id : Z) :
  codec_scan left arr codec_id = Returns false <->
  (left <= length arr)%nat /\ ~ In codec_id (firstn left arr).
Proof.
  revert arr. induction left as [|left IH]; intros arr; simpl.
  - split; [intros _; split; [lia | tauto] | reflexivity].
  - destruct arr as [|x arr]; simpl.
    + split; [discriminate | intros [H _]; lia].
    + destruct (x =? codec_id) eqn:Hx.
      * apply Z.eqb_eq in Hx. split; [discriminate | intros [_ H]; tauto].
      * apply Z.eqb_neq in Hx. rewrite IH.
        split; intros [H1 H2]; (split; [lia | tauto]).
Qed.

(** It runs off the entries it is given exactly when it is asked for
    more of them than there are and the id is not among them. *)
Lemma codec_scan_fault (left : nat) (arr : list Z) (codec_id : Z) :
  codec_scan left arr codec_id = Fault <->
  (length arr < left)%nat /\ ~ In codec_id arr.
Proof.
  revert arr. induction left as [|left IH]; intros arr; simpl.
  - split; [discriminate | intros [H _]; lia].
  - destruct arr as [|x arr]; simpl.
    + split; [intros _; split; [lia | tauto] | reflexivity].
    + destruct (x =? codec_id) eqn:Hx.
      * apply Z.eqb_eq in Hx. split; [discriminate | intros [_ H]; tauto].
      * apply Z.eqb_neq in Hx. rewrite IH.
        split; intros [H1 H2]; (split; [lia | tauto]).
Qed.

Lemma codec_scan_ends (left : nat) (arr : list Z) (codec_id : Z) :
  codec_scan left arr codec_id <> OutOfFuel.
Proof.
  revert arr. induction left as [|left IH]; intros arr; simpl; [discriminate|].
  destruct arr as [|x arr]; [discriminate|].
  destruct (x =? codec_id); [discriminate | apply IH].
Qed.

(** The theorem at work: a started, armed handle; [next_track]; then a
    pause, a write and a resume; the second [next_track] is refused. *)
Lemma next_track_is_one_shot_witness :
  compress_next_track Demo.demo_strerror
    (snd (fst Demo.one_shot_calls)) (snd Demo.one_shot_calls)
  = Returns (-1,
             set_error (snd (fst Demo.one_shot_calls))
               (oops_text Demo.demo_strerror EPERM "metadata not set"),
             set_errno (snd Demo.one_shot_calls) EPERM).
Proof.
  assert (H1 : compress_next_track Demo.demo_strerror Demo.armed_handle Demo.demo_env
               = Returns (0, fst Demo.one_shot_first, snd Demo.one_shot_first))
    by reflexivity.
  assert (H2 : run_calls Demo.demo_strerror [api_pause; api_write 4 100; api_resume]
                 (fst Demo.one_shot_first) (snd Demo.one_shot_first)
               = Returns (fst (fst Demo.one_shot_calls),
                          snd (fst Demo.one_shot_calls), snd Demo.one_shot_calls))
    by reflexivity.
  assert (H3 : existsb ok_set_gapless_metadata (fst (fst Demo.one_shot_calls))
               = false)
    by reflexivity.
  exact (proj2 (proj2 (next_track_is_one_shot _ _ _ _ _ H1)) _ _ _ _ H2 H3).
Defined.

(** The theorem at work: start, metadata, [next_track], and then the
    [partial_drain] that is let through. *)
Lemma partial_drain_needs_next_track_witness :
  next_track (fst Demo.drain_after_next_track) = 0 /\
  next_track_since_drain (fst (fst Demo.to_next_track)) = true.
Proof.
  assert (H1 : compress_partial_drain Demo.demo_strerror
                 (snd (fst Demo.to_next_track)) (snd Demo.to_next_track)
               = Returns (0, fst Demo.drain_after_next_track,
                          snd Demo.drain_after_next_track))
    by reflexivity.
  assert (H2 : run_calls Demo.demo_strerror
                 [api_start; api_set_gapless_metadata Demo.demo_mdata; api_next_track]
                 (Demo.demo_handle (Demo.demo_ops 258 0 0) COMPRESS_IN) Demo.demo_env
               = Returns (fst (fst Demo.to_next_track),
                          snd (fst Demo.to_next_track), snd Demo.to_next_track))
    by reflexivity.
  destruct (proj2 (proj2 (partial_drain_needs_next_track Demo.demo_strerror
                            (snd (fst Demo.to_next_track))
                            (snd Demo.to_next_track))) _ _ H1)
    as (_ & _ & Hclear & _ & Hhist).
  split; [exact Hclear|].
  refine (Hhist _ _ _ _ _ H2). reflexivity.
Defined.

(** The demo device honours the transfer contract. *)
Lemma demo_contract (version ret revents : Z) :
  transfer_contract (Demo.demo_ops version ret revents).
Proof.
  intros d cbuf n. simpl. unfold Demo.demo_moved, INT_MIN, INT_MAX.
  destruct (n <? 0) eqn:H1; destruct (65536 <? n) eqn:H2; lia.
Qed.




(** C5 as stated fails: a device that reports version [0], which is below
    [SNDRV_PROTOCOL_VERSION(0, 1, 1)], makes the call return [-1] with
    nothing recorded: [errno] is what it was, not [ENXIO], and the error
    text is still empty. *)
Lemma version_zero_is_not_reported :
  0 < SNDRV_PROTOCOL_VERSION 0 1 1 /\
  compress_set_gapless_metadata Demo.demo_strerror
    (Demo.demo_handle (Demo.demo_ops 0 0 0) COMPRESS_IN) Demo.demo_mdata Demo.demo_env
  = Returns (-1, Demo.handle_of Demo.version_zero_run,
             Demo.env_of Demo.version_zero_run) /\
  errno (Demo.env_of Demo.version_zero_run) = errno Demo.demo_env /\
  errno (Demo.env_of Demo.version_zero_run) <> ENXIO /\
  error (Demo.handle_of Demo.version_zero_run) = "" /\
  gapless_metadata (Demo.handle_of Demo.version_zero_run) = 0.
Proof.
  split; [reflexivity|]. split; [reflexivity|]. split; [reflexivity|].
  split; [discriminate|]. split; reflexivity.
Qed.

(** The theorem at work: a device that reports version 0.1.0 is refused
    with [ENXIO]. *)
Lemma set_gapless_metadata_arms_on_full_success_witness :
  compress_set_gapless_metadata Demo.demo_strerror
    (Demo.demo_handle (Demo.demo_ops 256 0 0) COMPRESS_IN) Demo.demo_mdata Demo.demo_env
  = Returns (-1,
             set_error (Demo.handle_of Demo.old_version_read)
               (oops_text Demo.demo_strerror ENXIO
                  "gapless apis not supported in kernel"),
             set_errno (Demo.env_of Demo.old_version_read) ENXIO).
Proof.
  refine (proj2 (proj1 (proj2 (set_gapless_metadata_arms_on_full_success
                                 Demo.demo_strerror
                                 (Demo.demo_handle (Demo.demo_ops 256 0 0) COMPRESS_IN)
                                 Demo.demo_mdata Demo.demo_env))
                   256 (Demo.handle_of Demo.old_version_read)
                   (Demo.env_of Demo.old_version_read) eq_refl eq_refl) _).
  split; [lia | reflexivity].
Defined.

(** C4 fails on the code.  A handle is opened, started, given its
    gapless metadata and told of the next track: it is running with the
    next-track flag set.  [compress_set_codec_params] with the next track's
    descriptor then passes the guard and copies the descriptor onto the
    pointer member [config->codec] (line 637), past the end of the
    configuration block, instead of storing it and pushing it to the device;
    with a null descriptor it reads through the null pointer (line 636)
    instead of failing with an error.  Neither run returns. *)
Theorem set_codec_params_overruns_the_config :
  run_calls Demo.demo_strerror
    [api_start; api_set_gapless_metadata Demo.demo_mdata; api_next_track]
    (Demo.demo_handle (Demo.demo_ops 258 0 0) COMPRESS_IN) Demo.demo_env
  = Returns Demo.to_next_track /\
  truthy (is_compress_running (snd (fst Demo.to_next_track))) = true /\
  next_track (snd (fst Demo.to_next_track)) = 1 /\
  compress_set_codec_params Demo.demo_strerror (snd (fst Demo.to_next_track))
    (Some Demo.next_codec) (snd Demo.to_next_track)
  = Fault /\
  compress_set_codec_params Demo.demo_strerror (snd (fst Demo.to_next_track))
    None (snd Demo.to_next_track)
  = Fault.
Proof.
  repeat split; reflexivity.
Qed.

(** The theorem at work: 96001 frames at 48000 Hz are 2 s and 20833 ns. *)
Lemma hw_pointer_timestamp_witness :
  compress_get_hpointer Demo.demo_strerror
    (Demo.demo_handle (Demo.demo_ops 258 0 0) COMPRESS_IN) Demo.demo_env
  = Returns (0, Some (2048, {| tv_sec := 2; tv_nsec := 20833 |}),
             snd (fst Demo.hpointer_reply), snd Demo.hpointer_reply).
Proof.
  refine (proj2 (proj2 (proj2 (hw_pointer_timestamp Demo.demo_strerror
                                 (Demo.demo_handle (Demo.demo_ops 258 0 0) COMPRESS_IN)
                                 Demo.demo_env)
                          0 (fst (fst Demo.hpointer_reply))
                          (snd (fst Demo.hpointer_reply)) (snd Demo.hpointer_reply)
                          eq_refl eq_refl)) eq_refl _ _).
  - simpl. unfold UINT_MAX. lia.
  - simpl. unfold UINT_MAX. lia.
Defined.

(** The theorem at work: card 0 opened with fragment size and count
    zero receives the device's 1024-byte minimum and 8-fragment maximum. *)
Lemma open_negotiates_defaults_witness :
  exists ncfg c,
    snd (fst Demo.dont_care_open) = Some ncfg /\
    heap (snd Demo.dont_care_open) !! O = Some c /\ config c = Some ncfg /\
    fragment_size ncfg = 1024 /\ fragments ncfg = 8 /\
    running c = 0 /\ max_poll_wait_ms c = 20000 /\
    gapless_metadata c = 0 /\ next_track c = 0.
Proof.
  destruct (open_negotiates_defaults Demo.demo_strerror Demo.demo_get_dev_node
              Demo.demo_get_node_type (Demo.demo_ops 258 0 0) Demo.dead_ops []
              0 0 COMPRESS_OUT (Some Demo.dont_care)
              (snd (fst Demo.dont_care_open)) Demo.demo_world
              (snd Demo.dont_care_open) O eq_refl)
    as (cfg & ncfg & c & Hcfg & Hn & _ & Hc & Hcc & Hz & Hr & Hp & Hg & Ht).
  exists ncfg, c.
  assert (Hzero : fragment_size cfg = 0 \/ fragments cfg = 0).
  { left. injection Hcfg as <-. reflexivity. }
  destruct (Hz Hzero) as [Hfs Hfr].
  repeat split; assumption.
Defined.

(** The theorem at work: card 1 cannot be opened; the sentinel comes
    back, the allocator is as before, and closing it three times changes
    nothing. *)
Lemma close_of_sentinel_is_noop_witness :
  heap_room (snd Demo.dead_open) = heap_room Demo.demo_world /\
  close_times 3 bad_ptr (snd Demo.dead_open) = Returns (snd Demo.dead_open).
Proof.
  destruct (proj2 (proj2 (close_of_sentinel_is_noop Demo.demo_strerror
                            Demo.demo_get_dev_node Demo.demo_get_node_type
                            (Demo.demo_ops 258 0 0) Demo.dead_ops []))
              1 0 COMPRESS_OUT (Some Demo.demo_config)
              (snd (fst Demo.dead_open)) Demo.demo_world (snd Demo.dead_open)
              eq_refl)
    as (_ & Hroom & Hclose).
  split; [exact Hroom | exact (Hclose 3%nat)].
Defined.

(** C10 fails on the code when the backend cannot open the device:
    probing card 1 resolves node 2, the open fails, and the probe returns
    [false] with the node never released; the trace ends at the open. *)
Theorem probe_leaks_node_when_open_fails :
  Demo.demo_probe 1 Demo.demo_codec = Returns Demo.dead_probe /\
  fst Demo.dead_probe = false /\
  trace (w_env (snd Demo.dead_probe))
  = [ev_get_dev_node 1 0 NODE_COMPRESS 2; ev_open 1 0 COMPRESS_IN 0 (-1)] /\
  existsb (fun ev => match ev with ev_put_dev_node _ => true | _ => false end)
    (trace (w_env (snd Demo.dead_probe))) = false.
Proof.
  repeat split; reflexivity.
Qed.

(** * Further properties *)

Lemma substring_length_le (n : nat) (s : string) :
  (String.length (String.substring 0 n s) <= n)%nat.
Proof.
  revert s. induction n as [|n IH]; intros s.
  - destruct s; simpl; lia.
  - destruct s as [|a s]; simpl; [lia|]. specialize (IH s). lia.
Qed.

Section MoreHandleFacts.

Context {D : Type}.
Variable strerror : Z -> string.

Lemma oops_text_fits (e : Z) (msg : string) :
  (String.length (oops_text strerror e msg) < COMPR_ERR_MAX)%nat.
Proof.
  unfold oops_text, COMPR_ERR_MAX.
  pose proof (substring_length_le (128 - 1) (msg +:+ ": " +:+ strerror e)). lia.
Qed.

(** A pass that leaves [compress_write] returns the count so far with
    the error text as it was, or [-1] with a report. *)
Lemma write_pass_exit (frag : Z) (s : @xfer D) r c' en' :
  write_pass strerror frag s = Exit (r, c', en') ->
  (r = -1 /\ reported strerror c' en') \/
  (r = x_total s /\ error c' = error (x_c s)).
Proof.
  unfold write_pass, write_avail. intros H. run_code.
  all: first [ right; split; reflexivity
             | left; split; [reflexivity|]; eexists; eexists; split; reflexivity ].
Qed.

Lemma read_pass_exit (frag : Z) (s : @xfer D) r c' en' :
  read_pass strerror frag s = Exit (r, c', en') ->
  (r = -1 /\ reported strerror c' en') \/
  (r = x_total s /\ error c' = error (x_c s)).
Proof.
  unfold read_pass, read_avail. intros H. run_code.
  all: first [ right; split; reflexivity
             | left; split; [reflexivity|]; eexists; eexists; split; reflexivity ].
Qed.

Lemma write_loop_outcome (fuel : nat) (frag : Z) (s : @xfer D) r c' en' :
  write_loop strerror fuel frag s = Returns (r, c', en') ->
  0 <= x_total s ->
  (r = -1 /\ reported strerror c' en') \/ (0 <= r /\ error c' = error (x_c s)).
Proof.
  revert s. induction fuel as [|fuel IH]; intros s; simpl.
  - destruct (x_size s =? 0); [|discriminate].
    intros H Ht. simplify_eq. right. split; [exact Ht | reflexivity].
  - destruct (x_size s =? 0).
    { intros H Ht. simplify_eq. right. split; [exact Ht | reflexivity]. }
    destruct (write_pass strerror frag s) as [s1|[[r0 c0] e0]|] eqn:Hp;
      intros H Ht; try discriminate.
    + apply write_pass_next in Hp as (_ & Herr & Htot & _).
      destruct (IH s1 H (Htot Ht)) as [Hl | [Hr He]]; [left; exact Hl|].
      right. split; [exact Hr | congruence].
    + simplify_eq. apply write_pass_exit in Hp as [Hl | [Hr He]]; [left; exact Hl|].
      right. split; [lia | exact He].
Qed.

Lemma read_loop_outcome (fuel : nat) (frag : Z) (s : @xfer D) r c' en' :
  read_loop strerror fuel frag s = Returns (r, c', en') ->
  0 <= x_total s ->
  (r = -1 /\ reported strerror c' en') \/ (0 <= r /\ error c' = error (x_c s)).
Proof.
  revert s. induction fuel as [|fuel IH]; intros s; simpl.
  - destruct (x_size s =? 0); [|discriminate].
    intros H Ht. simplify_eq. right. split; [exact Ht | reflexivity].
  - destruct (x_size s =? 0).
    { intros H Ht. simplify_eq. right. split; [exact Ht | reflexivity]. }
    destruct (read_pass strerror frag s) as [s1|[[r0 c0] e0]|] eqn:Hp;
      intros H Ht; try discriminate.
    + apply read_pass_next in Hp as (_ & Herr & Htot & _).
      destruct (IH s1 H (Htot Ht)) as [Hl | [Hr He]]; [left; exact Hl|].
      right. split; [exact Hr | congruence].
    + simplify_eq. apply read_pass_exit in Hp as [Hl | [Hr He]]; [left; exact Hl|].
      right. split; [lia | exact He].
Qed.

(** What any call leaves: success with the error text untouched, [-1]
    with a report, or the silent [-1] of [compress_set_gapless_metadata]. *)
Lemma run_call_outcome (a : api_call) (c c' : compress D) en en' r :
  run_call strerror a c en = Returns (r, c', en') ->
  (r = -1 /\ reported strerror c' en') \/
  (0 <= r /\ error c' = error c) \/
  (r = -1 /\ error c' = error c /\ exists m, a = api_set_gapless_metadata m).
Proof.
  destruct a; simpl; intros H.
  11: { unfold compress_read in H. run_code.
        3: { apply read_loop_outcome in H; [|simpl; lia]. simpl in H. tauto. }
        all: left; split; [reflexivity|]; eexists; eexists; split; reflexivity. }
  10: { unfold compress_write in H. run_code.
        3: { apply write_loop_outcome in H; [|simpl; lia]. simpl in H. tauto. }
        all: left; split; [reflexivity|]; eexists; eexists; split; reflexivity. }
  all: unfold compress_start, compress_stop, compress_pause, compress_resume,
         compress_drain, compress_partial_drain, compress_next_track,
         compress_set_gapless_metadata, get_compress_version,
         compress_set_codec_params, compress_get_hpointer, compress_get_tstamp,
         compress_wait, compress_set_max_poll_wait, compress_nonblock in H.
  all: run_code.
  all: first [ right; left; split; [lia | reflexivity]
             | left; split; [reflexivity|]; eexists; eexists; split; reflexivity
             | right; right; split; [reflexivity|]; split; [reflexivity|];
               eexists; reflexivity
             | idtac ].
Qed.

End MoreHandleFacts.

Section Reports.

Context {D : Type}.
Variable strerror : Z -> string.

(** X1.  Whatever calls are made on a handle, the error text stays
    within the buffer: if it had fewer than [COMPR_ERR_MAX] characters
    before, it has fewer than [COMPR_ERR_MAX] after. *)
Theorem error_text_fits_buffer (l : list api_call) (c c' : compress D) en en' h :
  run_calls strerror l c en = Returns (h, c', en') ->
  (String.length (compress_get_error c) < COMPR_ERR_MAX)%nat ->
  (String.length (compress_get_error c') < COMPR_ERR_MAX)%nat.
Proof.
  revert c en h. induction l as [|a l IH]; intros c en h; simpl.
  - intros H Hlen. simplify_eq. exact Hlen.
  - destruct (run_call strerror a c en) as [[[r c1] e1]| |] eqn:Ha;
      simpl; try discriminate.
    destruct (run_calls strerror l c1 e1) as [[[h1 c2] e2]| |] eqn:Hl;
      simpl; try discriminate.
    intros H Hlen. simplify_eq. apply (IH c1 e1 h1 Hl).
    unfold compress_get_error in *.
    apply run_call_outcome in Ha as [[_ (e & msg & He & _)] | [[_ He] | (_ & He & _)]].
    + unfold compress_get_error in He. rewrite He. apply oops_text_fits.
    + rewrite He. exact Hlen.
    + rewrite He. exact Hlen.
Qed.


End Reports.

Section Lifecycle.

Context {D : Type}.
Variable strerror : Z -> string.

(** X3.  No call on a handle changes its descriptor, and none clears
    [running]: a handle that is running stays running whatever is called
    (a successful [compress_stop] included), and a handle that was not
    running and now is has seen a successful [compress_start]. *)
Theorem no_call_clears_running (l : list api_call) (c c' : compress D) en en' h :
  run_calls strerror l c en = Returns (h, c', en') ->
  fd c' = fd c /\
  (running c <> 0 -> running c' <> 0) /\
  (running c = 0 -> running c' <> 0 -> existsb ok_start h = true).
Proof.
  revert c en h. induction l as [|a l IH]; intros c en h; simpl.
  - intros H. simplify_eq. split; [reflexivity|]. split; [tauto | congruence].
  - destruct (run_call strerror a c en) as [[[r c1] e1]| |] eqn:Ha;
      simpl; try discriminate.
    destruct (run_calls strerror l c1 e1) as [[[h1 c2] e2]| |] eqn:Hl;
      simpl; try discriminate.
    intros H. simplify_eq.
    apply run_call_latches in Ha as (Hfd & Hr & _).
    destruct (IH c1 e1 h1 Hl) as (Hfd1 & Hkeep & Hsince).
    split; [congruence|]. simpl.
    destruct (ok_start (a, r)) eqn:Hs.
    + split; [intros _; apply Hkeep; lia | reflexivity].
    + split; [intros Hn; apply Hkeep; congruence|].
      intros Hz Hn. apply Hsince; [congruence | exact Hn].
Qed.

(** X4.  The partial drain that succeeds uses up the next-track flag:
    right after it, [compress_set_codec_params] is refused with [ENODEV]
    whatever descriptor it is given (a null one included), and a second
    [compress_partial_drain] is refused with [EPERM]; neither refusal
    reaches the device. *)
Theorem next_track_flag_is_consumed_once (c c' : compress D) en en' :
  compress_partial_drain strerror c en = Returns (0, c', en') ->
  (forall codec_arg,
     compress_set_codec_params strerror c' codec_arg en'
     = Returns (-1, set_error c' (oops_text strerror ENODEV "device not ready"),
                set_errno en' ENODEV)) /\
  compress_partial_drain strerror c' en'
  = Returns (-1, set_error c' (oops_text strerror EPERM "next track not signalled"),
             set_errno en' EPERM).
Proof.
  intros H.
  pose proof (run_call_latches strerror api_partial_drain c c' en en' 0 H)
    as (Hfd & Hr & _ & Hn).
  simpl in Hr, Hn.
  split.
  - intros codec_arg.
    unfold compress_set_codec_params. rewrite Hn.
    rewrite orb_true_r. reflexivity.
  - assert (Hrun : truthy (is_compress_running c) = true).
    { unfold compress_partial_drain in H.
      destruct (truthy (is_compress_running c)); [reflexivity|].
      unfold oops in H. simpl in H. simplify_eq. }
    assert (Hrun' : truthy (is_compress_running c') = true).
    { rewrite is_compress_running_spec in *. rewrite Hfd, Hr. exact Hrun. }
    unfold compress_partial_drain. rewrite Hrun', Hn. reflexivity.
Qed.

Lemma not_ready_not_running (c : compress D) :
  truthy (is_compress_ready c) = false -> truthy (is_compress_running c) = false.
Proof.
  intros H. destruct (truthy (is_compress_running c)) eqn:Hr; [|reflexivity].
  apply running_is_ready in Hr. congruence.
Qed.

(** X5.  On a handle that is not device-ready, every call that tests
    readiness is refused with [ENODEV], "device not ready", before anything
    else is looked at, so without reaching the backend and even when the
    handle has no backend (the sentinel).  [compress_resume] and
    [compress_wait] have no such test: they call the backend of a handle
    that is not ready, and dereference a null [ops]. *)
Theorem not_ready_handle_is_refused (c : compress D) (en : env D) :
  truthy (is_compress_ready c) = false ->
  (forall a, guarded a = true ->
     run_call strerror a c en
     = Returns (-1, set_error c (oops_text strerror ENODEV "device not ready"),
                set_errno en ENODEV)) /\
  (forall o, ops c = Some o ->
     (exists r c' en',
        compress_resume strerror c en = Returns (r, c', en') /\
        trace en' = trace en ++ [ev_ioctl SNDRV_COMPRESS_RESUME]) /\
     (forall t, exists r c' en',
        compress_wait strerror c t en = Returns (r, c', en') /\
        trace en' = trace en ++ [ev_poll (Z.lor POLLOUT POLLIN) t])) /\
  (ops c = None ->
   compress_resume strerror c en = Fault /\
   forall t, compress_wait strerror c t en = Fault).
Proof.
  intros Hrd. pose proof (not_ready_not_running c Hrd) as Hrun.
  split; [|split].
  - intros a Hg. destruct a; try discriminate Hg; simpl;
      unfold compress_start, compress_stop, compress_pause, compress_drain,
        compress_partial_drain, compress_next_track,
        compress_set_gapless_metadata, compress_set_codec_params,
        compress_get_hpointer, compress_get_tstamp;
      rewrite ?Hrd, ?Hrun; reflexivity.
  - intros o Ho. split.
    + unfold compress_resume, call_ioctl. rewrite Ho. simpl.
      destruct (truthy (io_ret (ops_ioctl o (data c) SNDRV_COMPRESS_RESUME)));
        unfold oops; eexists _, _, _; split; reflexivity.
    + intros t. unfold compress_wait, call_poll. rewrite Ho. simpl.
      unfold oops. repeat case_match; eexists _, _, _; split; reflexivity.
  - intros Ho. split.
    + unfold compress_resume, call_ioctl. rewrite Ho. reflexivity.
    + intros t. unfold compress_wait, call_poll. rewrite Ho. reflexivity.
Qed.

(** X6.  [compress_wait] returns [0] exactly when the poll returned a
    positive count with a readable or writable event and no error event;
    otherwise it returns [-1], with [EIO] for a positive count, [ETIME] for
    zero and the poll's own error for a negative count.  It changes nothing
    of the handle but the error text and the backend data. *)
Theorem wait_classifies_the_poll
  (c c1 c' : compress D) (timeout_ms ret revents r : Z) (en e1 en' : env D) :
  call_poll c (Z.lor POLLOUT POLLIN) timeout_ms en = Returns (ret, revents, c1, e1) ->
  compress_wait strerror c timeout_ms en = Returns (r, c', en') ->
  (r = 0 <->
   0 < ret /\ Z.land revents POLLERR = 0 /\
   Z.land revents (Z.lor POLLOUT POLLIN) <> 0) /\
  (r <> 0 ->
   r = -1 /\
   errno en' = (if 0 <? ret then EIO else if ret =? 0 then ETIME else errno e1)) /\
  same_ctl c c'.
Proof.
  intros Hp H. unfold compress_wait in H. rewrite Hp in H. simpl in H.
  apply call_poll_ctl in Hp as (Hctl & _).
  destruct (0 <? ret) eqn:Hpos; simpl in H.
  - apply Z.ltb_lt in Hpos.
    destruct (truthy (Z.land revents POLLERR)) eqn:Herr; simpl in H.
    { unfold oops in H. simplify_eq. apply truthy_true in Herr.
      split; [split; [lia | tauto]|]. split; [intros _; split; reflexivity|].
      unfold same_ctl in *. simpl. exact Hctl. }
    apply truthy_false in Herr.
    destruct (truthy (Z.land revents (Z.lor POLLOUT POLLIN))) eqn:Hev.
    { simplify_eq. apply truthy_true in Hev.
      split; [tauto|]. split; [lia | exact Hctl]. }
    apply truthy_false in Hev.
    assert (H0 : (ret =? 0) = false) by (apply Z.eqb_neq; lia).
    assert (H1 : (ret <? 0) = false) by (apply Z.ltb_ge; lia).
    rewrite H0, H1 in H. unfold oops in H. simplify_eq.
    split; [split; [lia | tauto]|]. split; [intros _; split; reflexivity|].
    unfold same_ctl in *. simpl. exact Hctl.
  - apply Z.ltb_ge in Hpos.
    destruct (ret =? 0) eqn:Hz.
    { unfold oops in H. simplify_eq.
      split; [split; [lia | intros [? _]; lia]|].
      split; [intros _; split; reflexivity|].
      unfold same_ctl in *. simpl. exact Hctl. }
    apply Z.eqb_neq in Hz.
    assert (H1 : (ret <? 0) = true) by (apply Z.ltb_lt; lia).
    rewrite H1 in H. unfold oops in H. simplify_eq.
    split; [split; [lia | intros [? _]; lia]|].
    split; [intros _; split; reflexivity|].
    unfold same_ctl in *. simpl. exact Hctl.
Qed.

End Lifecycle.

Section MoreQueries.

Context {D : Type}.
Variable strerror : Z -> string.

(** X7.  When [compress_get_hpointer] succeeds, the time it stores is a
    well-formed [timespec] and is the exact play time truncated to a
    nanosecond: [0 <= tv_nsec < 1000000000] and
    [tv_sec * 1000000000 + tv_nsec = f * 1000000000 / r] for the frame count
    [f] and rate [r] the device reported; the availability stored is the
    reported one reduced to 32 bits. *)
Theorem hw_pointer_is_truncated_time
  (c c1 c' : compress D) (en e1 en' : env D) rc kavail av ts :
  call_ioctl c SNDRV_COMPRESS_AVAIL en = Returns (rc, kavail, c1, e1) ->
  0 <= pcm_io_frames (tstamp kavail) <= UINT_MAX ->
  0 <= sampling_rate (tstamp kavail) <= UINT_MAX ->
  compress_get_hpointer strerror c en = Returns (0, Some (av, ts), c', en') ->
  0 <= tv_nsec ts < 1000000000 /\
  tv_sec ts * 1000000000 + tv_nsec ts
  = pcm_io_frames (tstamp kavail) * 1000000000 / sampling_rate (tstamp kavail) /\
  av = avail kavail mod 4294967296.
Proof.
  intros Hio Hf Hr H. unfold compress_get_hpointer in H.
  destruct (negb (truthy (is_compress_ready c))); [unfold oops in H; simplify_eq|].
  rewrite Hio in H. unfold mbind, outcome_bind in H.
  destruct (truthy rc); [unfold oops in H; simplify_eq|].
  set (f := pcm_io_frames (tstamp kavail)) in *.
  set (r := sampling_rate (tstamp kavail)) in *.
  destruct (0 =? r) eqn:Hz; [unfold oops in H; simplify_eq|].
  apply Z.eqb_neq in Hz. simplify_eq. simpl.
  assert (Hq : 0 <= f / r <= f).
  { split; [apply Z.div_pos; lia|]. apply Z.div_le_upper_bound; nia. }
  assert (Hm : 0 <= f mod r < r) by (apply Z.mod_pos_bound; lia).
  unfold UINT_MAX in *.
  rewrite (u64_small (f / r)) by lia.
  rewrite (u64_small (f mod r)) by lia.
  rewrite (u64_small (f mod r * 1000000000)) by nia.
  split.
  - split; [apply Z.div_pos; lia|]. apply Z.div_lt_upper_bound; nia.
  - split; [|reflexivity].
    rewrite (Z.div_mod f r) at 3 by lia.
    replace ((r * (f / r) + f mod r) * 1000000000)
      with (f / r * 1000000000 * r + f mod r * 1000000000) by ring.
    rewrite Z.div_add_l by lia. reflexivity.
Qed.

(** X8.  [compress_set_gapless_metadata] calls the device in a fixed
    order and stops at the first failure: what it adds to the trace is a
    prefix of version query, padding push, delay push, and it returns [0]
    only when it added all three. *)
Theorem gapless_metadata_pushes_in_order
  (c c' : compress D) (mdata : compr_gapless_mdata) (en en' : env D) r :
  compress_set_gapless_metadata strerror c mdata en = Returns (r, c', en') ->
  let V := ev_ioctl SNDRV_COMPRESS_IOCTL_VERSION in
  let P := ev_ioctl (SNDRV_COMPRESS_SET_METADATA
                       {| key := SNDRV_COMPRESS_ENCODER_PADDING;
                          value0 := encoder_padding mdata |}) in
  let Q := ev_ioctl (SNDRV_COMPRESS_SET_METADATA
                       {| key := SNDRV_COMPRESS_ENCODER_DELAY;
                          value0 := encoder_delay mdata |}) in
  exists evs,
    trace en' = trace en ++ evs /\
    (evs = [] \/ evs = [V] \/ evs = [V; P] \/ evs = [V; P; Q]) /\
    (r = 0 -> evs = [V; P; Q]).
Proof.
  intros H V P Q. subst V P Q.
  unfold compress_set_gapless_metadata, get_compress_version in H.
  run_code.
  all: repeat rewrite <- app_assoc; simpl.
  1: exists []; rewrite app_nil_r; split; [reflexivity|]; split; [tauto | lia].
  all: eexists; split; [reflexivity|]; split; [tauto | try lia; reflexivity].
Qed.

End MoreQueries.

Section MoreTransfer.

Context {D : Type}.
Variable strerror : Z -> string.

Lemma write_loop_range (fuel : nat) (frag : Z) (s : @xfer D) o r c' en' :
  write_loop strerror fuel frag s = Returns (r, c', en') ->
  ops (x_c s) = Some o -> transfer_contract o ->
  0 <= x_total s -> 0 <= x_size s <= UINT_MAX ->
  r = -1 \/ 0 <= r <= x_total s + x_size s.
Proof.
  revert s. induction fuel as [|fuel IH]; intros s; simpl.
  - destruct (x_size s =? 0); [|discriminate].
    intros H _ _ Ht Hs. simplify_eq. right. lia.
  - destruct (x_size s =? 0) eqn:Hz.
    { intros H _ _ Ht Hs. simplify_eq. right. lia. }
    apply Z.eqb_neq in Hz.
    destruct (write_pass strerror frag s) as [s1|[[r0 c0] e0]|] eqn:Hp;
      intros H Ho Hc Ht Hs; try discriminate.
    + apply write_pass_next in Hp as (Hctl & _ & Htot & Hsum & _).
      destruct (Hsum o Ho Hc) as [Hk Hs1]; [lia|].
      assert (Ho1 : ops (x_c s1) = Some o).
      { unfold same_ctl in Hctl. destruct Hctl as (?&?&?&?&?&?&?&?&Hops&?).
        congruence. }
      destruct (IH s1 H Ho1 Hc (Htot Ht) Hs1) as [Hl | Hr]; [left; exact Hl|].
      right. lia.
    + simplify_eq.
      apply write_pass_exit in Hp as [[Hl _] | [Hr _]]; [left; exact Hl|].
      right. lia.
Qed.

Lemma read_loop_range (fuel : nat) (frag : Z) (s : @xfer D) o r c' en' :
  read_loop strerror fuel frag s = Returns (r, c', en') ->
  ops (x_c s) = Some o -> transfer_contract o ->
  0 <= x_total s -> 0 <= x_size s <= UINT_MAX ->
  r = -1 \/ 0 <= r <= x_total s + x_size s.
Proof.
  revert s. induction fuel as [|fuel IH]; intros s; simpl.
  - destruct (x_size s =? 0); [|discriminate].
    intros H _ _ Ht Hs. simplify_eq. right. lia.
  - destruct (x_size s =? 0) eqn:Hz.
    { intros H _ _ Ht Hs. simplify_eq. right. lia. }
    apply Z.eqb_neq in Hz.
    destruct (read_pass strerror frag s) as [s1|[[r0 c0] e0]|] eqn:Hp;
      intros H Ho Hc Ht Hs; try discriminate.
    + apply read_pass_next in Hp as (Hctl & _ & Htot & Hsum & _).
      destruct (Hsum o Ho Hc) as [Hk Hs1]; [lia|].
      assert (Ho1 : ops (x_c s1) = Some o).
      { unfold same_ctl in Hctl. destruct Hctl as (?&?&?&?&?&?&?&?&Hops&?).
        congruence. }
      destruct (IH s1 H Ho1 Hc (Htot Ht) Hs1) as [Hl | Hr]; [left; exact Hl|].
      right. lia.
    + simplify_eq.
      apply read_pass_exit in Hp as [[Hl _] | [Hr _]]; [left; exact Hl|].
      right. lia.
Qed.

(** X9.  With a backend that honours [transfer_contract], a write or a
    read of [size] bytes, in either mode and however it ends, returns [-1]
    or a count between [0] and [size]: never more than was asked for. *)
Theorem transfer_never_exceeds_request
  (fuel : nat) (c c' : compress D) (o : compress_ops D) (size r : Z) (en en' : env D) :
  ops c = Some o -> transfer_contract o -> 0 <= size <= UINT_MAX ->
  (compress_write strerror fuel c size en = Returns (r, c', en') ->
   r = -1 \/ 0 <= r <= size) /\
  (compress_read strerror fuel c size en = Returns (r, c', en') ->
   r = -1 \/ 0 <= r <= size).
Proof.
  intros Ho Hc Hs. split; intros H.
  - unfold compress_write in H.
    destruct (config c); [|discriminate].
    destruct (negb (truthy (Z.land (flags c) COMPRESS_IN)));
      [unfold oops in H; simplify_eq; left; reflexivity|].
    destruct (negb (truthy (is_compress_ready c)));
      [unfold oops in H; simplify_eq; left; reflexivity|].
    apply (write_loop_range _ _ _ o) in H; simpl; try assumption; lia.
  - unfold compress_read in H.
    destruct (config c); [|discriminate].
    destruct (negb (truthy (Z.land (flags c) COMPRESS_OUT)));
      [unfold oops in H; simplify_eq; left; reflexivity|].
    destruct (negb (truthy (is_compress_ready c)));
      [unfold oops in H; simplify_eq; left; reflexivity|].
    apply (read_loop_range _ _ _ o) in H; simpl; try assumption; lia.
Qed.

(** X10.  The tests a transfer makes before its loop, in the order the
    code makes them: a null configuration is dereferenced first; then a
    handle not opened for the direction is refused with [EINVAL], ready or
    not; then a handle that is not ready is refused with [ENODEV]; and a
    transfer of zero bytes returns [0].  None of these reaches the backend. *)
Theorem transfer_entry_checks (fuel : nat) (c : compress D) (size : Z) (en : env D) :
  (config c = None ->
   compress_write strerror fuel c size en = Fault /\
   compress_read strerror fuel c size en = Fault) /\
  (config c <> None ->
   (truthy (Z.land (flags c) COMPRESS_IN) = false ->
    compress_write strerror fuel c size en
    = Returns (-1, set_error c (oops_text strerror EINVAL "Invalid flag set"),
               set_errno en EINVAL)) /\
   (truthy (Z.land (flags c) COMPRESS_OUT) = false ->
    compress_read strerror fuel c size en
    = Returns (-1, set_error c (oops_text strerror EINVAL "Invalid flag set"),
               set_errno en EINVAL)) /\
   (truthy (is_compress_ready c) = false ->
    (truthy (Z.land (flags c) COMPRESS_IN) = true ->
     compress_write strerror fuel c size en
     = Returns (-1, set_error c (oops_text strerror ENODEV "device not ready"),
                set_errno en ENODEV)) /\
    (truthy (Z.land (flags c) COMPRESS_OUT) = true ->
     compress_read strerror fuel c size en
     = Returns (-1, set_error c (oops_text strerror ENODEV "device not ready"),
                set_errno en ENODEV))) /\
   (truthy (is_compress_ready c) = true -> size = 0 ->
    (truthy (Z.land (flags c) COMPRESS_IN) = true ->
     compress_write strerror fuel c size en = Returns (0, c, en)) /\
    (truthy (Z.land (flags c) COMPRESS_OUT) = true ->
     compress_read strerror fuel c size en = Returns (0, c, en)))).
Proof.
  split.
  - intros Hn. unfold compress_write, compress_read. rewrite Hn. split; reflexivity.
  - intros Hcfg. destruct (config c) as [cfg|] eqn:Hc; [|congruence].
    unfold compress_write, compress_read. rewrite Hc.
    split; [intros Hf; rewrite Hf; reflexivity|].
    split; [intros Hf; rewrite Hf; reflexivity|].
    split.
    + intros Hrd. split; intros Hf; rewrite Hf, Hrd; reflexivity.
    + intros Hrd Hz. subst size.
      split; intros Hf; rewrite Hf, Hrd; simpl; destruct fuel; reflexivity.
Qed.

(** One pass on a prompt backend moves at least one byte and goes
    round again. *)
Lemma write_pass_prompt (frag : Z) (s : @xfer D) o :
  ops (x_c s) = Some o -> prompt_backend o frag ->
  0 < x_size s -> 0 <= x_total s -> x_total s + x_size s <= INT_MAX ->
  exists s', write_pass strerror frag s = Next s' /\
    ops (x_c s') = Some o /\
    x_total s' + x_size s' = x_total s + x_size s /\
    x_total s < x_total s' /\ 0 <= x_size s'.
Proof.
  intros Ho [Hav Hx] Hs Ht Hk.
  destruct (Hav (data (x_c s))) as (Hrc & Hfrag & Hone).
  set (av := avail (io_out (ops_ioctl o (data (x_c s)) SNDRV_COMPRESS_AVAIL))) in *.
  assert (Hcount : 1 <= transfer_count (x_size s) av <= INT_MAX /\
                   transfer_count (x_size s) av <= x_size s).
  { unfold transfer_count. unfold INT_MAX in *.
    destruct (x_size s >? av) eqn:Hcmp.
    - apply Z.gtb_lt in Hcmp. rewrite s32_small by (unfold INT_MAX; lia). lia.
    - rewrite Z.gtb_ltb, Z.ltb_ge in Hcmp.
      rewrite s32_small by (unfold INT_MAX; lia). lia. }
  destruct Hcount as [Hc1 Hc2].
  destruct (Hx (io_data (ops_ioctl o (data (x_c s)) SNDRV_COMPRESS_AVAIL))
              (x_cbuf s) (transfer_count (x_size s) av) Hc1) as [Hw _].
  unfold write_pass, call_ioctl. rewrite Ho. simpl. rewrite Hrc. simpl.
  fold av.
  assert (Hlow : (av <? frag) = false) by (apply Z.ltb_ge; lia).
  rewrite Hlow. simpl.
  unfold write_avail, call_write. simpl. rewrite Ho. simpl.
  fold (transfer_count (x_size s) av).
  set (w := xfer_ret (ops_write o (io_data (ops_ioctl o (data (x_c s))
                                               SNDRV_COMPRESS_AVAIL))
                        (x_cbuf s) (transfer_count (x_size s) av))) in *.
  assert (Hneg : (w <? 0) = false) by (apply Z.ltb_ge; lia).
  assert (Hov : (INT_MAX <? x_total s + w) = false) by (apply Z.ltb_ge; lia).
  rewrite Hneg, Hov. eexists. split; [reflexivity|]. simpl.
  split; [exact Ho|].
  rewrite u32_small by (unfold UINT_MAX, INT_MAX in *; lia). lia.
Qed.

Lemma read_pass_prompt (frag : Z) (s : @xfer D) o :
  ops (x_c s) = Some o -> prompt_backend o frag ->
  0 < x_size s -> 0 <= x_total s -> x_total s + x_size s <= INT_MAX ->
  exists s', read_pass strerror frag s = Next s' /\
    ops (x_c s') = Some o /\
    x_total s' + x_size s' = x_total s + x_size s /\
    x_total s < x_total s' /\ 0 <= x_size s'.
Proof.
  intros Ho [Hav Hx] Hs Ht Hk.
  destruct (Hav (data (x_c s))) as (Hrc & Hfrag & Hone).
  set (av := avail (io_out (ops_ioctl o (data (x_c s)) SNDRV_COMPRESS_AVAIL))) in *.
  assert (Hcount : 1 <= transfer_count (x_size s) av <= INT_MAX /\
                   transfer_count (x_size s) av <= x_size s).
  { unfold transfer_count. unfold INT_MAX in *.
    destruct (x_size s >? av) eqn:Hcmp.
    - apply Z.gtb_lt in Hcmp. rewrite s32_small by (unfold INT_MAX; lia). lia.
    - rewrite Z.gtb_ltb, Z.ltb_ge in Hcmp.
      rewrite s32_small by (unfold INT_MAX; lia). lia. }
  destruct Hcount as [Hc1 Hc2].
  destruct (Hx (io_data (ops_ioctl o (data (x_c s)) SNDRV_COMPRESS_AVAIL))
              (x_cbuf s) (transfer_count (x_size s) av) Hc1) as [_ Hw].
  unfold read_pass, call_ioctl. rewrite Ho. simpl. rewrite Hrc. simpl.
  fold av.
  assert (Hlow : (av <? frag) = false) by (apply Z.ltb_ge; lia).
  rewrite Hlow. simpl.
  unfold read_avail, call_read. simpl. rewrite Ho. simpl.
  fold (transfer_count (x_size s) av).
  set (w := xfer_ret (ops_read o (io_data (ops_ioctl o (data (x_c s))
                                              SNDRV_COMPRESS_AVAIL))
                        (x_cbuf s) (transfer_count (x_size s) av))) in *.
  assert (Hneg : (w <? 0) = false) by (apply Z.ltb_ge; lia).
  assert (Hov : (INT_MAX <? x_total s + w) = false) by (apply Z.ltb_ge; lia).
  rewrite Hneg, Hov. eexists. split; [reflexivity|]. simpl.
  split; [exact Ho|].
  rewrite u32_small by (unfold UINT_MAX, INT_MAX in *; lia). lia.
Qed.

Lemma write_loop_prompt (fuel : nat) (frag : Z) (s : @xfer D) o :
  ops (x_c s) = Some o -> prompt_backend o frag ->
  0 <= x_size s -> 0 <= x_total s -> x_total s + x_size s <= INT_MAX ->
  (Z.to_nat (x_size s) <= fuel)%nat ->
  exists c' en',
    write_loop strerror fuel frag s = Returns (x_total s + x_size s, c', en').
Proof.
  revert s. induction fuel as [|fuel IH]; intros s Ho Hp Hs Ht Hk Hf.
  - assert (Hz : x_size s = 0) by lia. simpl.
    apply Z.eqb_eq in Hz as Hz'. rewrite Hz'. eexists _, _.
    rewrite Hz, Z.add_0_r. reflexivity.
  - simpl. destruct (x_size s =? 0) eqn:Hz.
    { apply Z.eqb_eq in Hz. eexists _, _. rewrite Hz, Z.add_0_r. reflexivity. }
    apply Z.eqb_neq in Hz.
    destruct (write_pass_prompt frag s o Ho Hp) as (s' & Hpass & Ho' & Hsum & Hgrow & Hs');
      try lia.
    rewrite Hpass. rewrite <- Hsum. apply IH; try assumption; lia.
Qed.

Lemma read_loop_prompt (fuel : nat) (frag : Z) (s : @xfer D) o :
  ops (x_c s) = Some o -> prompt_backend o frag ->
  0 <= x_size s -> 0 <= x_total s -> x_total s + x_size s <= INT_MAX ->
  (Z.to_nat (x_size s) <= fuel)%nat ->
  exists c' en',
    read_loop strerror fuel frag s = Returns (x_total s + x_size s, c', en').
Proof.
  revert s. induction fuel as [|fuel IH]; intros s Ho Hp Hs Ht Hk Hf.
  - assert (Hz : x_size s = 0) by lia. simpl.
    apply Z.eqb_eq in Hz as Hz'. rewrite Hz'. eexists _, _.
    rewrite Hz, Z.add_0_r. reflexivity.
  - simpl. destruct (x_size s =? 0) eqn:Hz.
    { apply Z.eqb_eq in Hz. eexists _, _. rewrite Hz, Z.add_0_r. reflexivity. }
    apply Z.eqb_neq in Hz.
    destruct (read_pass_prompt frag s o Ho Hp) as (s' & Hpass & Ho' & Hsum & Hgrow & Hs');
      try lia.
    rewrite Hpass. rewrite <- Hsum. apply IH; try assumption; lia.
Qed.

(** X11.  On a ready handle whose backend always has room
    ([prompt_backend]), a write or a read of [size <= INT_MAX] bytes
    terminates within [size] passes and returns [size]: everything asked
    for is moved. *)
Theorem prompt_backend_moves_everything
  (fuel : nat) (c : compress D) (cfg : compr_config) (o : compress_ops D)
  (size : Z) (en : env D) :
  config c = Some cfg -> ops c = Some o ->
  prompt_backend o (fragment_size cfg) ->
  truthy (is_compress_ready c) = true ->
  0 <= size <= INT_MAX -> (Z.to_nat size <= fuel)%nat ->
  (truthy (Z.land (flags c) COMPRESS_IN) = true ->
   exists c' en', compress_write strerror fuel c size en = Returns (size, c', en')) /\
  (truthy (Z.land (flags c) COMPRESS_OUT) = true ->
   exists c' en', compress_read strerror fuel c size en = Returns (size, c', en')).
Proof.
  intros Hcfg Ho Hp Hrd Hs Hf. split; intros Hfl.
  - rewrite (compress_write_enters strerror fuel c cfg size en Hcfg Hfl Hrd).
    destruct (write_loop_prompt fuel (fragment_size cfg) (xfer_start c size en) o)
      as (c' & en' & H); simpl; try assumption; try lia.
    exists c', en'. simpl in H. rewrite Z.add_0_l in H. exact H.
  - rewrite (compress_read_enters strerror fuel c cfg size en Hcfg Hfl Hrd).
    destruct (read_loop_prompt fuel (fragment_size cfg) (xfer_start c size en) o)
      as (c' & en' & H); simpl; try assumption; try lia.
    exists c', en'. simpl in H. rewrite Z.add_0_l in H. exact H.
Qed.

End MoreTransfer.

Section MoreOpening.

Context {D : Type}.
Variable strerror : Z -> string.
Variable snd_utils_get_dev_node : Z -> Z -> Z -> node.
Variable snd_utils_get_node_type : node -> Z.
Variable compr_hw_ops : compress_ops D.
Variable compr_plug_ops : compress_ops D.
Variable null_data : D.

(** X12.  An open with a null configuration, or with flags that name
    no direction, returns the sentinel without resolving a node or calling a
    backend, and leaves the heap and the allocator as they were; unless the
    allocator ran out first, the sentinel then carries the [EINVAL] report. *)
Theorem open_rejects_before_the_device
  (card device flags : Z) (config_arg cfg' : option compr_config)
  (w w' : world D) (p : handle_ptr) :
  config_arg = None \/
  truthy (Z.land flags COMPRESS_OUT) || truthy (Z.land flags COMPRESS_IN) = false ->
  compress_open strerror snd_utils_get_dev_node snd_utils_get_node_type
    compr_hw_ops compr_plug_ops null_data card device flags config_arg w
  = (p, cfg', w') ->
  p = bad_ptr /\ cfg' = config_arg /\
  trace (w_env w') = trace (w_env w) /\
  heap w' = heap w /\ heap_room w' = heap_room w /\
  (config_arg = None \/ (2 <= heap_room w)%nat ->
   errno (w_env w') = EINVAL /\
   compress_get_error (bad_compress w')
   = oops_text strerror EINVAL
       (match config_arg with
        | None => "passed bad config"
        | Some _ => "can't deduce device direction from given flags"
        end)).
Proof.
  intros Hbad H. unfold compress_open in H.
  destruct config_arg as [cfg|].
  2: { simplify_eq. simpl. repeat split; reflexivity. }
  destruct Hbad as [Hbad|Hbad]; [discriminate|].
  unfold calloc in H.
  destruct (heap_room w) as [|[|n]] eqn:Hroom; simpl in H.
  - simplify_eq. simpl. split; [reflexivity|]. split; [reflexivity|].
    split; [reflexivity|]. split; [reflexivity|]. split; [congruence|].
    intros [?|?]; [discriminate|lia].
  - simplify_eq. simpl. split; [reflexivity|]. split; [reflexivity|].
    split; [reflexivity|]. split; [reflexivity|]. split; [congruence|].
    intros [?|?]; [discriminate|lia].
  - rewrite Hbad in H. simpl in H. simplify_eq. simpl.
    split; [reflexivity|]. split; [reflexivity|].
    split; [reflexivity|]. split; [reflexivity|]. split; [congruence|].
    intros _. split; reflexivity.
Qed.


(** The shape of the world after an open that returned a live handle. *)
Lemma open_live_shape
  (card device mode : Z) (config_arg cfg' : option compr_config)
  (w w' : world D) (a : nat) :
  compress_open strerror snd_utils_get_dev_node snd_utils_get_node_type
    compr_hw_ops compr_plug_ops null_data card device mode config_arg w
  = (live_ptr a, cfg', w') ->
  let n := snd_utils_get_dev_node card device NODE_COMPRESS in
  let o := select_ops snd_utils_get_node_type compr_hw_ops compr_plug_ops n in
  let r := ops_open o card device mode n in
  let q := ops_ioctl o (open_data r) SNDRV_COMPRESS_GET_CAPS in
  exists cfg c,
    config_arg = Some cfg /\
    cfg' = Some (fill_defaults cfg (io_out q)) /\
    heap w !! a = None /\ heap w' = <[a := c]> (heap w) /\
    heap_room w = S (S (heap_room w')) /\
    bad_compress w' = bad_compress w /\
    config c = cfg' /\ fd c = open_fd r /\ 0 <= open_fd r /\ flags c = mode /\
    ops c = Some o /\ snd_node c = n /\ error c = "" /\ nonblocking c = 0 /\
    data c
    = io_data (ops_ioctl o (io_data q)
                 (SNDRV_COMPRESS_SET_PARAMS
                    (fill_compress_params (fill_defaults cfg (io_out q))))) /\
    trace (w_env w')
    = trace (w_env w)
      ++ [ev_get_dev_node card device NODE_COMPRESS n;
          ev_open card device mode n (open_fd r);
          ev_ioctl SNDRV_COMPRESS_GET_CAPS;
          ev_ioctl (SNDRV_COMPRESS_SET_PARAMS
                      (fill_compress_params (fill_defaults cfg (io_out q))))].
Proof.
  intros H n o r q. unfold compress_open, calloc in H.
  destruct config_arg as [cfg|]; [|discriminate].
  destruct (heap_room w) as [|[|k]] eqn:Hk; try discriminate.
  simpl in H. fold n in H. fold o in H. fold r in H.
  destruct (negb _); [discriminate|].
  destruct (open_fd r <? 0) eqn:Hfd; [discriminate|]. apply Z.ltb_ge in Hfd.
  fold q in H.
  destruct (truthy (io_ret q)); [discriminate|].
  match type of H with
  | context [truthy ?x] => destruct (truthy x); [discriminate|]
  end.
  simplify_eq. simpl.
  eexists cfg, _. split; [reflexivity|]. split; [reflexivity|].
  split; [apply fresh_is_free|].
  repeat (split; [first [reflexivity | assumption]|]).
  repeat rewrite <- app_assoc. reflexivity.
Qed.

(** X13.  What [compress_open] does once two blocks are allocated and
    the flags name a direction.  If the backend's open fails, the sentinel
    is returned with the node never released.  If the capability query
    fails, the node is released and the connection closed, once each, and
    the caller's configuration is untouched.  If the parameters are refused,
    the same release and close follow, but the caller's configuration has
    already received the defaults.  Otherwise the open succeeds. *)
Theorem open_steps_and_their_cleanup
  (card device flags : Z) (cfg : compr_config) (w : world D) :
  let n := snd_utils_get_dev_node card device NODE_COMPRESS in
  let o := select_ops snd_utils_get_node_type compr_hw_ops compr_plug_ops n in
  let r := ops_open o card device flags n in
  let q := ops_ioctl o (open_data r) SNDRV_COMPRESS_GET_CAPS in
  let ncfg := fill_defaults cfg (io_out q) in
  let params := fill_compress_params ncfg in
  let s := ops_ioctl o (io_data q) (SNDRV_COMPRESS_SET_PARAMS params) in
  let res :=
    compress_open strerror snd_utils_get_dev_node snd_utils_get_node_type
      compr_hw_ops compr_plug_ops null_data card device flags (Some cfg) w in
  let reached :=
    trace (w_env w)
    ++ [ev_get_dev_node card device NODE_COMPRESS n;
        ev_open card device flags n (open_fd r)] in
  (2 <= heap_room w)%nat ->
  truthy (Z.land flags COMPRESS_OUT) || truthy (Z.land flags COMPRESS_IN) = true ->
  (open_fd r < 0 ->
   fst res = (bad_ptr, Some cfg) /\ trace (w_env (snd res)) = reached) /\
  (0 <= open_fd r -> io_ret q <> 0 ->
   fst res = (bad_ptr, Some cfg) /\
   trace (w_env (snd res))
   = reached ++ [ev_ioctl SNDRV_COMPRESS_GET_CAPS;
                 ev_put_dev_node n; ev_close (io_data q)]) /\
  (0 <= open_fd r -> io_ret q = 0 -> io_ret s <> 0 ->
   fst res = (bad_ptr, Some ncfg) /\
   trace (w_env (snd res))
   = reached ++ [ev_ioctl SNDRV_COMPRESS_GET_CAPS;
                 ev_ioctl (SNDRV_COMPRESS_SET_PARAMS params);
                 ev_put_dev_node n; ev_close (io_data s)]) /\
  (0 <= open_fd r -> io_ret q = 0 -> io_ret s = 0 ->
   fst res = (live_ptr (fresh (dom (heap w))), Some ncfg) /\
   trace (w_env (snd res))
   = reached ++ [ev_ioctl SNDRV_COMPRESS_GET_CAPS;
                 ev_ioctl (SNDRV_COMPRESS_SET_PARAMS params)]).
Proof.
  intros n o r q ncfg params s res reached Hroom Hdir.
  subst res reached. unfold compress_open, calloc.
  destruct (heap_room w) as [|[|k]] eqn:Hk; try lia. simpl.
  rewrite Hdir. simpl. fold n. fold o. fold r.
  split; [|split; [|split]].
  - intros Hfd. apply Z.ltb_lt in Hfd. rewrite Hfd. simpl.
    split; [reflexivity|]. rewrite <- app_assoc. reflexivity.
  - intros Hfd Hq. apply Z.ltb_ge in Hfd. rewrite Hfd. fold q.
    apply truthy_true in Hq. rewrite Hq. simpl.
    split; [reflexivity|]. repeat rewrite <- app_assoc. reflexivity.
  - intros Hfd Hq Hs. apply Z.ltb_ge in Hfd. rewrite Hfd. fold q.
    apply truthy_false in Hq. rewrite Hq. simpl.
    fold ncfg. fold params. fold s.
    apply truthy_true in Hs. rewrite Hs. simpl.
    split; [reflexivity|]. repeat rewrite <- app_assoc. reflexivity.
  - intros Hfd Hq Hs. apply Z.ltb_ge in Hfd. rewrite Hfd. fold q.
    apply truthy_false in Hq. rewrite Hq. simpl.
    fold ncfg. fold params. fold s.
    apply truthy_false in Hs. rewrite Hs. simpl.
    split; [reflexivity|]. repeat rewrite <- app_assoc. reflexivity.
Qed.

(** X14.  A handle returned by [compress_open] is ready and consistent:
    its descriptor is the one the backend returned, the configuration it
    stores is the one handed back to the caller and the one pushed to the
    device, it holds the node and the backend chosen for that node, its
    error text is empty and it is in blocking mode; the sentinel and every
    other live handle are as they were, and two blocks have been taken. *)
Theorem opened_handle_is_consistent
  (card device mode : Z) (config_arg cfg' : option compr_config)
  (w w' : world D) (a : nat) :
  compress_open strerror snd_utils_get_dev_node snd_utils_get_node_type
    compr_hw_ops compr_plug_ops null_data card device mode config_arg w
  = (live_ptr a, cfg', w') ->
  exists c ncfg,
    heap w' !! a = Some c /\
    truthy (is_compress_ready c) = true /\
    truthy (is_compress_running c) = false /\
    config c = Some ncfg /\ cfg' = Some ncfg /\
    last (trace (w_env w'))
    = Some (ev_ioctl (SNDRV_COMPRESS_SET_PARAMS (fill_compress_params ncfg))) /\
    flags c = mode /\
    snd_node c = snd_utils_get_dev_node card device NODE_COMPRESS /\
    ops c = Some (select_ops snd_utils_get_node_type compr_hw_ops compr_plug_ops
                    (snd_node c)) /\
    compress_get_error c = "" /\ nonblocking c = 0 /\
    bad_compress w' = bad_compress w /\
    (forall b, b <> a -> heap w' !! b = heap w !! b) /\
    heap_room w = S (S (heap_room w')).
Proof.
  intros H.
  assert (Hrun : exists c0, heap w' !! a = Some c0 /\ running c0 = 0).
  { unfold compress_open in H.
    repeat (case_match; try discriminate). simplify_eq. simpl.
    eexists. split; [apply lookup_insert_eq | reflexivity]. }
  apply open_live_shape in H.
  destruct H as (cfg & c & Hc & Hcfg' & Hfree & Hheap & Hroom & Hbad & Hcc & Hfd & Hpos
                 & Hfl & Hops & Hn & Herr & Hnb & Hd & Htr).
  destruct Hrun as (c0 & Hc0 & Hr0).
  assert (c0 = c) by (rewrite Hheap, lookup_insert_eq in Hc0; congruence). subst c0.
  exists c, (fill_defaults cfg
               (io_out (ops_ioctl
                          (select_ops snd_utils_get_node_type compr_hw_ops
                             compr_plug_ops
                             (snd_utils_get_dev_node card device NODE_COMPRESS))
                          (open_data
                             (ops_open
                                (select_ops snd_utils_get_node_type compr_hw_ops
                                   compr_plug_ops
                                   (snd_utils_get_dev_node card device NODE_COMPRESS))
                                card device mode
                                (snd_utils_get_dev_node card device NODE_COMPRESS)))
                          SNDRV_COMPRESS_GET_CAPS))).
  split; [exact Hc0|].
  split; [apply is_compress_ready_spec; lia|].
  split.
  { unfold is_compress_running. rewrite Hr0.
    destruct (0 <=? fd c); reflexivity. }
  split; [congruence|]. split; [exact Hcfg'|].
  split.
  { rewrite Htr.
    match goal with
    | |- last (?l ++ [?e1; ?e2; ?e3; ?e4]) = _ =>
        change (l ++ [e1; e2; e3; e4]) with (l ++ [e1; e2; e3] ++ [e4]);
        rewrite app_assoc; apply last_snoc
    end. }
  split; [exact Hfl|]. split; [exact Hn|].
  split; [rewrite Hn; exact Hops|].
  split; [exact Herr|]. split; [exact Hnb|]. split; [exact Hbad|].
  split; [|exact Hroom].
  intros b Hb. rewrite Hheap. apply lookup_insert_ne. congruence.
Qed.

(** X15.  Open, then close: closing a handle that [compress_open]
    returned releases its node and closes its connection, once each, and
    puts the heap and the allocator back as they were before the open; a
    second close of the same pointer is a use of freed memory. *)
Theorem open_then_close_restores
  (card device flags : Z) (config_arg cfg' : option compr_config)
  (w w' : world D) (a : nat) :
  compress_open strerror snd_utils_get_dev_node snd_utils_get_node_type
    compr_hw_ops compr_plug_ops null_data card device flags config_arg w
  = (live_ptr a, cfg', w') ->
  exists w'' c,
    heap w' !! a = Some c /\
    compress_close (live_ptr a) w' = Returns w'' /\
    heap w'' = heap w /\ heap_room w'' = heap_room w /\
    bad_compress w'' = bad_compress w /\
    trace (w_env w'')
    = trace (w_env w') ++ [ev_put_dev_node (snd_node c); ev_close (data c)] /\
    compress_close (live_ptr a) w'' = Fault.
Proof.
  intros H. apply open_live_shape in H.
  destruct H as (cfg & c & Hc & Hcfg' & Hfree & Hheap & Hroom & Hbad & Hcc & _ & _
                 & _ & Hops & _).
  assert (Hl : heap w' !! a = Some c) by (rewrite Hheap; apply lookup_insert_eq).
  unfold compress_close. rewrite Hl, Hops, Hcc, Hcfg'.
  eexists _, c. split; [reflexivity|]. split; [reflexivity|]. simpl.
  assert (Hdel : delete a (heap w') = heap w).
  { rewrite Hheap. apply delete_insert_id. exact Hfree. }
  rewrite Hdel, Hfree.
  split; [reflexivity|]. split; [congruence|]. split; [exact Hbad|].
  split; [rewrite <- app_assoc; reflexivity | reflexivity].
Qed.

(** X16.  Nothing that opens, closes or probes changes the sentinel
    beyond its error text: after an open, and after a probe that returns,
    its descriptor, flags, configuration, running state, mode, gapless
    flags, backend and node are what they were, and a close leaves it
    untouched. *)
Theorem sentinel_stays_inert (w : world D) :
  (forall card device flags config_arg,
     same_ctl (bad_compress w)
       (bad_compress
          (snd (compress_open strerror snd_utils_get_dev_node
                  snd_utils_get_node_type compr_hw_ops compr_plug_ops null_data
                  card device flags config_arg w)))) /\
  (forall p w', compress_close p w = Returns w' -> bad_compress w' = bad_compress w) /\
  (forall card device flags cd found w',
     is_codec_supported strerror snd_utils_get_dev_node snd_utils_get_node_type
       compr_hw_ops compr_plug_ops card device flags cd w
     = Returns (found, w') ->
     same_ctl (bad_compress w) (bad_compress w')).
Proof.
  split; [|split].
  - intros card device flags config_arg.
    unfold compress_open, calloc, oops_bad, calloc_failed, free, with_env, oops.
    repeat (case_match; simplify_eq; simpl); repeat split.
  - intros p w' H. unfold compress_close in H.
    repeat case_match; simplify_eq; reflexivity.
  - intros card device flags cd found w'.
    unfold is_codec_supported, _is_codec_type_supported, oops_bad, oops.
    unfold mbind, outcome_bind.
    intros H. repeat (case_match; simplify_eq; simpl in * ); repeat split.
Qed.

(** X17.  When the backend's open succeeds, [is_codec_supported] answers
    [true] exactly when the capability query succeeded and the codec's id is
    among the first [num_codecs] entries of [caps.codecs]; it releases the
    node and closes the connection, once each, after the query, and takes
    nothing from the allocator.  That is so when the query fails, when the
    device reports no more codecs than the array holds, and when the id is
    in the array.  When the device reports more codecs than the array holds
    and the id is not in the array, the scan reads past the end of the array
    and the probe does not return. *)
Theorem probe_answers_by_membership
  (card device flags : Z) (cd : snd_codec) (w : world D) :
  let n := snd_utils_get_dev_node card device NODE_COMPRESS in
  let o := select_ops snd_utils_get_node_type compr_hw_ops compr_plug_ops n in
  let r := ops_open o card device flags 0 in
  let q := ops_ioctl o (open_data r) SNDRV_COMPRESS_GET_CAPS in
  let reported := Z.to_nat (num_codecs (io_out q)) in
  let res :=
    is_codec_supported strerror snd_utils_get_dev_node snd_utils_get_node_type
      compr_hw_ops compr_plug_ops card device flags cd w in
  0 <= open_fd r ->
  (io_ret q <> 0 \/ (reported <= MAX_NUM_CODECS)%nat \/
   In (id cd) (codecs_array (io_out q)) ->
   exists found w',
     res = Returns (found, w') /\
     (found = true <->
      io_ret q = 0 /\ In (id cd) (firstn reported (codecs_array (io_out q)))) /\
     trace (w_env w')
     = trace (w_env w)
       ++ [ev_get_dev_node card device NODE_COMPRESS n;
           ev_open card device flags 0 (open_fd r);
           ev_ioctl SNDRV_COMPRESS_GET_CAPS; ev_put_dev_node n;
           ev_close (io_data q)] /\
     heap w' = heap w /\ heap_room w' = heap_room w) /\
  (io_ret q = 0 -> (MAX_NUM_CODECS < reported)%nat ->
   ~ In (id cd) (codecs_array (io_out q)) ->
   res = Fault).
Proof.
  intros n o r q reported res Hfd. subst res.
  pose proof (probe_releases_after_open strerror snd_utils_get_dev_node
                snd_utils_get_node_type compr_hw_ops compr_plug_ops
                card device flags cd w Hfd) as Hp.
  fold n in Hp. fold o in Hp. fold r in Hp. fold q in Hp.
  unfold codec_listed in Hp. fold reported in Hp.
  pose proof (codecs_array_length (io_out q)) as Hlen.
  destruct (is_codec_supported strerror snd_utils_get_dev_node
              snd_utils_get_node_type compr_hw_ops compr_plug_ops
              card device flags cd w) as [[found w']| |].
  - destruct Hp as (Hb & Htr & Hh & Hr). split.
    + intros _. exists found, w'. split; [reflexivity|].
      split; [|split; [exact Htr | split; assumption]].
      destruct (truthy (io_ret q)) eqn:Hq.
      * apply truthy_true in Hq. subst found. split; [discriminate | tauto].
      * apply truthy_false in Hq. destruct found.
        -- apply codec_scan_true in Hb. tauto.
        -- apply codec_scan_false in Hb. split; [discriminate | tauto].
    + intros Hq Hmany Hout. apply truthy_false in Hq. rewrite Hq in Hb.
      destruct found.
      * apply codec_scan_true in Hb. exfalso. apply Hout.
        rewrite <- (firstn_skipn reported). apply in_or_app. left. exact Hb.
      * apply codec_scan_false in Hb. lia.
  - destruct Hp as (Hq & Hscan). apply codec_scan_fault in Hscan.
    split; [|reflexivity].
    apply truthy_false in Hq. intros [H | [H | H]]; [tauto | lia | tauto].
  - destruct Hp as (_ & Hscan). exfalso. exact (codec_scan_ends _ _ _ Hscan).
Qed.

End MoreOpening.

Section TransferTrace.

Context {D : Type}.
Variable strerror : Z -> string.

Lemma adds_only_refl ok (en : env D) : adds_only ok en en.
Proof. exists []. split; [symmetry; apply app_nil_r | reflexivity]. Qed.

Lemma adds_only_trans ok (e1 e2 e3 : env D) :
  adds_only ok e1 e2 -> adds_only ok e2 e3 -> adds_only ok e1 e3.
Proof.
  intros (l1 & H1 & F1) (l2 & H2 & F2). exists (l1 ++ l2).
  split; [rewrite H2, H1, app_assoc; reflexivity|].
  rewrite forallb_app, F1, F2. reflexivity.
Qed.

Ltac one_more :=
  repeat rewrite <- app_assoc; simpl;
  eexists; split; [reflexivity|]; simpl; repeat rewrite Z.eqb_refl; reflexivity.

Lemma write_pass_events (frag : Z) (s : @xfer D) :
  match write_pass strerror frag s with
  | Next s' =>
      max_poll_wait_ms (x_c s') = max_poll_wait_ms (x_c s) /\
      adds_only (write_event (max_poll_wait_ms (x_c s))) (x_env s) (x_env s')
  | Exit (_, _, en') =>
      adds_only (write_event (max_poll_wait_ms (x_c s))) (x_env s) en'
  | Crash => True
  end.
Proof.
  unfold write_pass, write_avail, adds_only. destruct s as [sz tot cb c en].
  run_code; try exact I; try split; try reflexivity; one_more.
Qed.

Lemma read_pass_events (frag : Z) (s : @xfer D) :
  match read_pass strerror frag s with
  | Next s' =>
      max_poll_wait_ms (x_c s') = max_poll_wait_ms (x_c s) /\
      adds_only (read_event (max_poll_wait_ms (x_c s))) (x_env s) (x_env s')
  | Exit (_, _, en') =>
      adds_only (read_event (max_poll_wait_ms (x_c s))) (x_env s) en'
  | Crash => True
  end.
Proof.
  unfold read_pass, read_avail, adds_only. destruct s as [sz tot cb c en].
  run_code; try exact I; try split; try reflexivity; one_more.
Qed.

Lemma write_loop_events (fuel : nat) (frag : Z) (s : @xfer D) r c' en' :
  write_loop strerror fuel frag s = Returns (r, c', en') ->
  adds_only (write_event (max_poll_wait_ms (x_c s))) (x_env s) en'.
Proof.
  revert s. induction fuel as [|fuel IH]; intros s H; simpl in H.
  - destruct (x_size s =? 0); [|discriminate]. simplify_eq. apply adds_only_refl.
  - destruct (x_size s =? 0); [simplify_eq; apply adds_only_refl|].
    pose proof (write_pass_events frag s) as Hp.
    destruct (write_pass strerror frag s) as [s'|[[r0 c0] e0]|]; [| |discriminate].
    + destruct Hp as [Hw Ha]. apply IH in H. rewrite Hw in H.
      exact (adds_only_trans _ _ _ _ Ha H).
    + simplify_eq. exact Hp.
Qed.

Lemma read_loop_events (fuel : nat) (frag : Z) (s : @xfer D) r c' en' :
  read_loop strerror fuel frag s = Returns (r, c', en') ->
  adds_only (read_event (max_poll_wait_ms (x_c s))) (x_env s) en'.
Proof.
  revert s. induction fuel as [|fuel IH]; intros s H; simpl in H.
  - destruct (x_size s =? 0); [|discriminate]. simplify_eq. apply adds_only_refl.
  - destruct (x_size s =? 0); [simplify_eq; apply adds_only_refl|].
    pose proof (read_pass_events frag s) as Hp.
    destruct (read_pass strerror frag s) as [s'|[[r0 c0] e0]|]; [| |discriminate].
    + destruct Hp as [Hw Ha]. apply IH in H. rewrite Hw in H.
      exact (adds_only_trans _ _ _ _ Ha H).
    + simplify_eq. exact Hp.
Qed.

(** X18.  A transfer calls the backend for nothing but its own business:
    after [compress_set_max_poll_wait(compress, ms)], every external call a
    [compress_write] makes, however long it runs and however it ends, is an
    availability query, a poll for [POLLOUT] with timeout [ms], or a write;
    a [compress_read] makes only availability queries, polls for [POLLIN]
    with timeout [ms], and reads.  [compress_nonblock] does not change the
    timeout. *)
Theorem transfer_polls_with_the_set_wait
  (fuel : nat) (c c' : compress D) (ms nb size r : Z) (en en' : env D) :
  (compress_write strerror fuel
     (compress_nonblock (compress_set_max_poll_wait c ms) nb) size en
   = Returns (r, c', en') ->
   exists evs, trace en' = trace en ++ evs /\ forallb (write_event ms) evs = true) /\
  (compress_read strerror fuel
     (compress_nonblock (compress_set_max_poll_wait c ms) nb) size en
   = Returns (r, c', en') ->
   exists evs, trace en' = trace en ++ evs /\ forallb (read_event ms) evs = true).
Proof.
  split; intros H.
  - unfold compress_write in H.
    destruct (config _); [|discriminate].
    destruct (negb _); [unfold oops in H; simplify_eq; exists []; split; [simpl; symmetry; apply app_nil_r | reflexivity]|].
    destruct (negb _); [unfold oops in H; simplify_eq; exists []; split; [simpl; symmetry; apply app_nil_r | reflexivity]|].
    exact (write_loop_events _ _ _ _ _ _ H).
  - unfold compress_read in H.
    destruct (config _); [|discriminate].
    destruct (negb _); [unfold oops in H; simplify_eq; exists []; split; [simpl; symmetry; apply app_nil_r | reflexivity]|].
    destruct (negb _); [unfold oops in H; simplify_eq; exists []; split; [simpl; symmetry; apply app_nil_r | reflexivity]|].
    exact (read_loop_events _ _ _ _ _ _ H).
Qed.

End TransferTrace.

(** ** The further properties at work on the demo device *)

Lemma error_text_fits_buffer_witness :
  (String.length (compress_get_error (snd (fst Demo.lifecycle_run)))
   < COMPR_ERR_MAX)%nat.
Proof.
  refine (error_text_fits_buffer Demo.demo_strerror
            [api_pause; api_start; api_stop]
            (Demo.demo_handle (Demo.demo_ops 258 0 0) COMPRESS_IN)
            (snd (fst Demo.lifecycle_run)) Demo.demo_env (snd Demo.lifecycle_run)
            (fst (fst Demo.lifecycle_run)) eq_refl _).
  simpl. unfold COMPR_ERR_MAX. lia.
Defined.


Lemma no_call_clears_running_witness :
  fd (snd (fst Demo.lifecycle_run)) = 3 /\
  existsb ok_start (fst (fst Demo.lifecycle_run)) = true.
Proof.
  destruct (no_call_clears_running Demo.demo_strerror
              [api_pause; api_start; api_stop]
              (Demo.demo_handle (Demo.demo_ops 258 0 0) COMPRESS_IN)
              (snd (fst Demo.lifecycle_run)) Demo.demo_env (snd Demo.lifecycle_run)
              (fst (fst Demo.lifecycle_run)) eq_refl)
    as (Hfd & _ & Hstart).
  split; [exact Hfd|]. apply Hstart; [reflexivity|]. simpl. lia.
Defined.

Lemma next_track_flag_is_consumed_once_witness :
  compress_set_codec_params Demo.demo_strerror
    (fst Demo.drain_after_next_track) (Some Demo.next_codec)
    (snd Demo.drain_after_next_track)
  = Returns (-1,
             set_error (fst Demo.drain_after_next_track)
               (oops_text Demo.demo_strerror ENODEV "device not ready"),
             set_errno (snd Demo.drain_after_next_track) ENODEV) /\
  compress_partial_drain Demo.demo_strerror
    (fst Demo.drain_after_next_track) (snd Demo.drain_after_next_track)
  = Returns (-1,
             set_error (fst Demo.drain_after_next_track)
               (oops_text Demo.demo_strerror EPERM "next track not signalled"),
             set_errno (snd Demo.drain_after_next_track) EPERM).
Proof.
  destruct (next_track_flag_is_consumed_once Demo.demo_strerror
              (snd (fst Demo.to_next_track)) (fst Demo.drain_after_next_track)
              (snd Demo.to_next_track) (snd Demo.drain_after_next_track) eq_refl)
    as [Hcodec Hdrain].
  split; [exact (Hcodec (Some Demo.next_codec)) | exact Hdrain].
Defined.

Lemma not_ready_handle_is_refused_witness :
  run_call Demo.demo_strerror api_start (bad_compress_init []) Demo.demo_env
  = Returns (-1,
             set_error (bad_compress_init [])
               (oops_text Demo.demo_strerror ENODEV "device not ready"),
             set_errno Demo.demo_env ENODEV) /\
  compress_resume Demo.demo_strerror (bad_compress_init []) Demo.demo_env = Fault.
Proof.
  destruct (not_ready_handle_is_refused Demo.demo_strerror
              (bad_compress_init ([] : Demo.dev)) Demo.demo_env eq_refl)
    as (Hg & _ & Hnull).
  split; [exact (Hg api_start eq_refl) | exact (proj1 (Hnull eq_refl))].
Defined.

Lemma wait_classifies_the_poll_witness :
  (fst (fst Demo.wait_run) = 0 <->
   0 < 1 /\ Z.land POLLOUT POLLERR = 0 /\
   Z.land POLLOUT (Z.lor POLLOUT POLLIN) <> 0) /\
  same_ctl Demo.writable_handle (snd (fst Demo.wait_run)).
Proof.
  destruct (wait_classifies_the_poll Demo.demo_strerror
              Demo.writable_handle (fst Demo.wait_poll) (snd (fst Demo.wait_run))
              50 1 POLLOUT (fst (fst Demo.wait_run))
              Demo.demo_env (snd Demo.wait_poll) (snd Demo.wait_run)
              eq_refl eq_refl)
    as (Hz & _ & Hctl).
  split; [exact Hz | exact Hctl].
Defined.

Lemma hw_pointer_is_truncated_time_witness :
  0 <= 20833 < 1000000000 /\
  2 * 1000000000 + 20833 = 96001 * 1000000000 / 48000 /\
  2048 = 2048 mod 4294967296.
Proof.
  refine (hw_pointer_is_truncated_time Demo.demo_strerror
            (Demo.demo_handle (Demo.demo_ops 258 0 0) COMPRESS_IN)
            (snd (fst Demo.hpointer_reply)) (snd (fst Demo.hpointer_reply))
            Demo.demo_env (snd Demo.hpointer_reply) (snd Demo.hpointer_reply)
            0 (fst (fst Demo.hpointer_reply)) 2048
            {| tv_sec := 2; tv_nsec := 20833 |} eq_refl _ _ eq_refl).
  - simpl. unfold UINT_MAX. lia.
  - simpl. unfold UINT_MAX. lia.
Defined.

Lemma gapless_metadata_pushes_in_order_witness :
  exists evs,
    trace (snd Demo.gapless_run) = trace Demo.demo_env ++ evs /\
    (evs = [] \/
     evs = [ev_ioctl SNDRV_COMPRESS_IOCTL_VERSION] \/
     evs = [ev_ioctl SNDRV_COMPRESS_IOCTL_VERSION;
            ev_ioctl (SNDRV_COMPRESS_SET_METADATA
                        {| key := SNDRV_COMPRESS_ENCODER_PADDING; value0 := 1024 |})] \/
     evs = [ev_ioctl SNDRV_COMPRESS_IOCTL_VERSION;
            ev_ioctl (SNDRV_COMPRESS_SET_METADATA
                        {| key := SNDRV_COMPRESS_ENCODER_PADDING; value0 := 1024 |});
            ev_ioctl (SNDRV_COMPRESS_SET_METADATA
                        {| key := SNDRV_COMPRESS_ENCODER_DELAY; value0 := 576 |})]) /\
    (fst (fst Demo.gapless_run) = 0 ->
     evs = [ev_ioctl SNDRV_COMPRESS_IOCTL_VERSION;
            ev_ioctl (SNDRV_COMPRESS_SET_METADATA
                        {| key := SNDRV_COMPRESS_ENCODER_PADDING; value0 := 1024 |});
            ev_ioctl (SNDRV_COMPRESS_SET_METADATA
                        {| key := SNDRV_COMPRESS_ENCODER_DELAY; value0 := 576 |})]).
Proof.
  exact (gapless_metadata_pushes_in_order Demo.demo_strerror
           (Demo.demo_handle (Demo.demo_ops 258 0 0) COMPRESS_IN)
           (snd (fst Demo.gapless_run)) Demo.demo_mdata Demo.demo_env
           (snd Demo.gapless_run) (fst (fst Demo.gapless_run)) eq_refl).
Defined.

Lemma transfer_never_exceeds_request_witness :
  2048 = -1 \/ 0 <= 2048 <= 4096.
Proof.
  refine (proj1 (transfer_never_exceeds_request Demo.demo_strerror 2
                   Demo.nonblocking_handle (snd (fst Demo.at_once_reply))
                   (Demo.demo_ops 258 0 0) 4096 2048 Demo.demo_env
                   (snd Demo.at_once_reply) eq_refl (demo_contract 258 0 0) _)
            eq_refl).
  unfold UINT_MAX. lia.
Defined.

Lemma transfer_entry_checks_witness :
  compress_read Demo.demo_strerror 2
    (Demo.demo_handle (Demo.demo_ops 258 0 0) COMPRESS_IN) 4096 Demo.demo_env
  = Returns (-1,
             set_error (Demo.demo_handle (Demo.demo_ops 258 0 0) COMPRESS_IN)
               (oops_text Demo.demo_strerror EINVAL "Invalid flag set"),
             set_errno Demo.demo_env EINVAL) /\
  compress_write Demo.demo_strerror 2
    (Demo.demo_handle (Demo.demo_ops 258 0 0) COMPRESS_IN) 0 Demo.demo_env
  = Returns (0, Demo.demo_handle (Demo.demo_ops 258 0 0) COMPRESS_IN, Demo.demo_env).
Proof.
  assert (Hcfg : config (Demo.demo_handle (Demo.demo_ops 258 0 0) COMPRESS_IN) <> None)
    by discriminate.
  split.
  - exact (proj1 (proj2 (proj2 (transfer_entry_checks Demo.demo_strerror 2
                                  (Demo.demo_handle (Demo.demo_ops 258 0 0) COMPRESS_IN)
                                  4096 Demo.demo_env) Hcfg)) eq_refl).
  - exact (proj1 (proj2 (proj2 (proj2 (proj2 (transfer_entry_checks Demo.demo_strerror 2
                                  (Demo.demo_handle (Demo.demo_ops 258 0 0) COMPRESS_IN)
                                  0 Demo.demo_env) Hcfg))) eq_refl eq_refl) eq_refl).
Defined.

Lemma roomy_prompt : prompt_backend Demo.roomy_ops 1024.
Proof.
  split.
  - intros d. simpl. lia.
  - intros d cbuf n Hn. simpl. unfold Demo.roomy_moved.
    destruct (65536 <? n) eqn:H; lia.
Qed.

Lemma prompt_backend_moves_everything_witness :
  exists c' en',
    compress_write Demo.demo_strerror 5 (Demo.demo_handle Demo.roomy_ops COMPRESS_IN)
      5 Demo.demo_env
    = Returns (5, c', en').
Proof.
  refine (proj1 (prompt_backend_moves_everything Demo.demo_strerror 5
                   (Demo.demo_handle Demo.roomy_ops COMPRESS_IN) Demo.demo_config
                   Demo.roomy_ops 5 Demo.demo_env eq_refl eq_refl roomy_prompt
                   eq_refl _ _) eq_refl).
  - unfold INT_MAX. lia.
  - simpl. lia.
Defined.

Lemma open_rejects_before_the_device_witness :
  fst (fst Demo.no_direction_open) = bad_ptr /\
  snd (fst Demo.no_direction_open) = Some Demo.demo_config /\
  trace (w_env (snd Demo.no_direction_open)) = [] /\
  heap_room (snd Demo.no_direction_open) = 4%nat /\
  errno (w_env (snd Demo.no_direction_open)) = EINVAL.
Proof.
  destruct (open_rejects_before_the_device Demo.demo_strerror Demo.demo_get_dev_node
              Demo.demo_get_node_type (Demo.demo_ops 258 0 0) Demo.dead_ops []
              0 0 0 (Some Demo.demo_config) (snd (fst Demo.no_direction_open))
              Demo.demo_world (snd Demo.no_direction_open)
              (fst (fst Demo.no_direction_open)) (or_intror eq_refl) eq_refl)
    as (Hp & Hc & Ht & _ & Hr & He).
  split; [exact Hp|]. split; [exact Hc|]. split; [exact Ht|]. split; [exact Hr|].
  apply He. right. simpl. lia.
Defined.

Lemma open_steps_and_their_cleanup_witness :
  fst (Demo.demo_open 1 COMPRESS_OUT (Some Demo.demo_config))
  = (bad_ptr, Some Demo.demo_config) /\
  trace (w_env (snd (Demo.demo_open 1 COMPRESS_OUT (Some Demo.demo_config))))
  = [ev_get_dev_node 1 0 NODE_COMPRESS 2; ev_open 1 0 COMPRESS_OUT 2 (-1)].
Proof.
  refine (proj1 (open_steps_and_their_cleanup Demo.demo_strerror Demo.demo_get_dev_node
                   Demo.demo_get_node_type (Demo.demo_ops 258 0 0) Demo.dead_ops []
                   1 0 COMPRESS_OUT Demo.demo_config Demo.demo_world _ eq_refl) _).
  - simpl. lia.
  - simpl. lia.
Defined.

Lemma opened_handle_is_consistent_witness :
  exists c ncfg,
    heap (snd Demo.dont_care_open) !! O = Some c /\
    truthy (is_compress_ready c) = true /\
    truthy (is_compress_running c) = false /\
    config c = Some ncfg /\ snd (fst Demo.dont_care_open) = Some ncfg /\
    flags c = COMPRESS_OUT /\ compress_get_error c = "" /\
    heap_room Demo.demo_world = S (S (heap_room (snd Demo.dont_care_open))).
Proof.
  destruct (opened_handle_is_consistent Demo.demo_strerror Demo.demo_get_dev_node
              Demo.demo_get_node_type (Demo.demo_ops 258 0 0) Demo.dead_ops []
              0 0 COMPRESS_OUT (Some Demo.dont_care)
              (snd (fst Demo.dont_care_open)) Demo.demo_world
              (snd Demo.dont_care_open) O eq_refl)
    as (c & ncfg & Hc & Hrd & Hrun & Hcfg & Hcfg' & _ & Hfl & _ & _ & Herr & _ & _ & _
        & Hroom).
  exists c, ncfg. repeat split; assumption.
Defined.

Lemma open_then_close_restores_witness :
  exists w'',
    compress_close (live_ptr O) (snd Demo.dont_care_open) = Returns w'' /\
    heap w'' = heap Demo.demo_world /\ heap_room w'' = heap_room Demo.demo_world /\
    compress_close (live_ptr O) w'' = Fault.
Proof.
  destruct (open_then_close_restores Demo.demo_strerror Demo.demo_get_dev_node
              Demo.demo_get_node_type (Demo.demo_ops 258 0 0) Demo.dead_ops []
              0 0 COMPRESS_OUT (Some Demo.dont_care)
              (snd (fst Demo.dont_care_open)) Demo.demo_world
              (snd Demo.dont_care_open) O eq_refl)
    as (w'' & c & _ & Hclose & Hh & Hr & _ & _ & Hagain).
  exists w''. repeat split; assumption.
Defined.

Lemma sentinel_stays_inert_witness :
  same_ctl (bad_compress Demo.demo_world)
    (bad_compress (snd (Demo.demo_open 1 COMPRESS_OUT (Some Demo.demo_config)))).
Proof.
  exact (proj1 (sentinel_stays_inert Demo.demo_strerror Demo.demo_get_dev_node
                  Demo.demo_get_node_type (Demo.demo_ops 258 0 0) Demo.dead_ops []
                  Demo.demo_world)
           1 0 COMPRESS_OUT (Some Demo.demo_config)).
Defined.

Lemma probe_answers_by_membership_witness :
  (exists found w',
     Demo.demo_probe 0 Demo.demo_codec = Returns (found, w') /\
     (found = true <-> 0 = 0 /\ In 3 (firstn 2 (codecs_array Demo.demo_caps))) /\
     trace (w_env w')
     = [ev_get_dev_node 0 0 NODE_COMPRESS 1; ev_open 0 0 COMPRESS_IN 0 3;
        ev_ioctl SNDRV_COMPRESS_GET_CAPS; ev_put_dev_node 1; ev_close [2048%N]]) /\
  is_codec_supported Demo.demo_strerror Demo.demo_get_dev_node
    Demo.demo_get_node_type Demo.crowded_ops Demo.dead_ops
    0 0 COMPRESS_IN Demo.unlisted_codec Demo.demo_world
  = Fault.
Proof.
  split.
  - destruct (probe_answers_by_membership Demo.demo_strerror Demo.demo_get_dev_node
                Demo.demo_get_node_type (Demo.demo_ops 258 0 0) Demo.dead_ops
                0 0 COMPRESS_IN Demo.demo_codec Demo.demo_world)
      as [Hret _].
    + simpl. lia.
    + destruct Hret as (found & w' & Hres & Hiff & Htr & _).
      * right. left. simpl. unfold MAX_NUM_CODECS. lia.
      * exists found, w'. split; [exact Hres|]. split; [exact Hiff | exact Htr].
  - refine (proj2 (probe_answers_by_membership Demo.demo_strerror
                     Demo.demo_get_dev_node Demo.demo_get_node_type
                     Demo.crowded_ops Demo.dead_ops
                     0 0 COMPRESS_IN Demo.unlisted_codec Demo.demo_world _)
              eq_refl _ _).
    + simpl. lia.
    + simpl. unfold MAX_NUM_CODECS. lia.
    + intros H. cbv in H.
      repeat (destruct H as [H | H]; [discriminate H|]). exact H.
Defined.

Lemma transfer_polls_with_the_set_wait_witness :
  exists evs,
    trace (snd Demo.timed_write) = trace Demo.demo_env ++ evs /\
    forallb (write_event 50) evs = true.
Proof.
  exact (proj1 (transfer_polls_with_the_set_wait Demo.demo_strerror 2
                  (Demo.demo_handle (Demo.demo_ops 258 0 0) COMPRESS_IN)
                  (snd (fst Demo.timed_write)) 50 0 4096 (fst (fst Demo.timed_write))
                  Demo.demo_env (snd Demo.timed_write)) eq_refl).
Defined.
